(** * LCPS Math Learning App: the problem generator of [server.js]

    A shallow embedding of the [/generate-problem] endpoint: the question
    normaliser, the bounded history of recent questions, the static bank of
    canned problems and the retrying generator around the completion
    provider, followed by the properties established about them.

    Conventions.
    - A JavaScript string is a [string]: a sequence of 8-bit character
      codes, read as the code units U+0000 .. U+00FF.  Case mapping, the
      whitespace class and the ordering of [sort] are the ECMAScript ones
      restricted to that range.
    - A JavaScript object is an association list in property order.  The
      bank and the curriculum map, whose keys come from the request, are
      read as JavaScript reads them: own keys first, then the names that
      every object inherits from [Object.prototype].  The property names
      read from the provider's replies are fixed and not among those.
    - Query parameters are absent or strings.
    - [JSON.parse], [decodeURIComponent] and the curriculum map (a file of
      the repository that [server.js] only loads) are parameters.
    - [Math.random()] is a double of the unit interval, and the product
      in [Math.floor(r * n)] is rounded to the nearest double as IEEE 754
      prescribes.
    - One invocation of [generateProblem] is one step.  The run of a
      request chains its invocations; the server states are closed under
      the invocations of any requests, in any order. *)

From Stdlib Require Import String Ascii List Bool Arith NArith ZArith Lia.
From Stdlib Require Import Permutation Sorted Orders Mergesort.
Import ListNotations.
Local Open Scope string_scope.

(** ** Strings *)

Module JsString.

Definition code (c : ascii) : nat := nat_of_ascii c.

Definition between (lo hi : nat) (c : ascii) : bool :=
  ((lo <=? code c) && (code c <=? hi))%nat.

(** Characters with a distinct lower-case form: A-Z, and the capital
    letters U+00C0 .. U+00DE without the multiplication sign U+00D7. *)
Definition isUpper (c : ascii) : bool :=
  between 65 90 c || (between 192 222 c && negb (code c =? 215)%nat).

Definition lowerChar (c : ascii) : ascii :=
  if isUpper c then ascii_of_nat (code c + 32) else c.

(** [String.prototype.toLowerCase] *)
Fixpoint toLowerCase (s : string) : string :=
  match s with
  | EmptyString => EmptyString
  | String c t => String (lowerChar c) (toLowerCase t)
  end.

(** The class [\s]: TAB, LF, VT, FF, CR, SPACE and NBSP. *)
Definition isSpace (c : ascii) : bool :=
  existsb (Nat.eqb (code c)) [9; 10; 11; 12; 13; 32; 160].

(** The class [[^a-z0-9\s]]. *)
Definition nonWordChar (c : ascii) : bool :=
  negb (between 97 122 c || between 48 57 c || isSpace c).

(** [s.replace(/[^a-z0-9\s]/g, '')]: every match, one character long, is
    replaced by the empty string. *)
Fixpoint replace_nonWord (s : string) : string :=
  match s with
  | EmptyString => EmptyString
  | String c t =>
      if nonWordChar c then replace_nonWord t
      else String c (replace_nonWord t)
  end.

(** [s.split(/\s+/)].  [tok] is the text since the end of the last
    separator; [inSep] tells that the scan is inside a separator match,
    which is greedy.  The text after the last separator is always
    emitted, also when it is empty. *)
Fixpoint split_ws_from (s tok : string) (inSep : bool) : list string :=
  match s with
  | EmptyString => [tok]
  | String c t =>
      if isSpace c then
        if inSep then split_ws_from t EmptyString true
        else tok :: split_ws_from t EmptyString true
      else split_ws_from t (tok ++ String c EmptyString) false
  end.

Definition split_ws (s : string) : list string :=
  split_ws_from s EmptyString false.

(** [Array.prototype.sort] without comparator: ascending code-unit
    order, a proper prefix first.  The algorithm is left to the engine;
    insertion into a sorted prefix is used here, and [sort_unique] below
    shows that the choice cannot be observed. *)
Fixpoint insert (x : string) (l : list string) : list string :=
  match l with
  | [] => [x]
  | y :: l' => if String.leb x y then x :: l else y :: insert x l'
  end.

Fixpoint sort (l : list string) : list string :=
  match l with
  | [] => []
  | x :: l' => insert x (sort l')
  end.

(** [Array.prototype.join] *)
Definition join (sep : string) (l : list string) : string :=
  String.concat sep l.

(** [String.prototype.trim] *)
Fixpoint trimStart (s : string) : string :=
  match s with
  | EmptyString => EmptyString
  | String c t => if isSpace c then trimStart t else s
  end.

Fixpoint trimEnd (s : string) : string :=
  match s with
  | EmptyString => EmptyString
  | String c t =>
      match trimEnd t with
      | EmptyString => if isSpace c then EmptyString else String c EmptyString
      | t' => String c t'
      end
  end.

Definition trim (s : string) : string := trimEnd (trimStart s).

(** [String.prototype.startsWith], [endsWith] and [includes] *)
Definition startsWith (s p : string) : bool := String.prefix p s.

Fixpoint includes (s p : string) : bool :=
  String.prefix p s ||
  match s with
  | EmptyString => false
  | String _ t => includes t p
  end.

Definition endsWith (s p : string) : bool :=
  let n := String.length s in
  let m := String.length p in
  (m <=? n)%nat && String.eqb (String.substring (n - m) m s) p.

End JsString.

Import JsString.

(** ** The question normaliser (server.js, lines 51-58) *)

Definition normalizeQuestion (question : string) : string :=
  join " " (sort (split_ws (replace_nonWord (toLowerCase question)))).

(** ** JavaScript values *)

(** The values that JSON text and the provider's replies can hold. *)
#[warnings="-register-all"]
Inductive JsVal : Type :=
| JUndefined
| JNull
| JBool (b : bool)
| JNum (n : Z)
| JStr (s : string)
| JArr (items : list JsVal)
| JObj (props : list (string * JsVal)).

Module Js.

(** Conversion to boolean, as [!v] and [a || b] apply it. *)
Definition truthy (v : JsVal) : bool :=
  match v with
  | JUndefined | JNull => false
  | JBool b => b
  | JNum n => negb (n =? 0)%Z
  | JStr s => negb (s =? EmptyString)
  | JArr _ | JObj _ => true
  end.

(** Own property of an object literal or of parsed JSON, in which a key
    occurs once. *)
Fixpoint own {A : Type} (k : string) (o : list (string * A)) : option A :=
  match o with
  | [] => None
  | (k', v) :: o' => if k' =? k then Some v else own k o'
  end.

(** [v.k] for a property name [k] that no built-in prototype defines
    (all the names read by the generator are of that kind).  [None] is
    the TypeError raised on [undefined] and [null]. *)
Definition prop (v : JsVal) (k : string) : option JsVal :=
  match v with
  | JUndefined | JNull => None
  | JObj ps => Some (match own k ps with Some x => x | None => JUndefined end)
  | _ => Some JUndefined
  end.

(** [v?.k] *)
Definition optProp (v : JsVal) (k : string) : JsVal :=
  match prop v k with
  | Some x => x
  | None => JUndefined
  end.

(** [v[0]] *)
Definition elem0 (v : JsVal) : option JsVal :=
  match v with
  | JUndefined | JNull => None
  | JArr (x :: _) => Some x
  | JStr (String c _) => Some (JStr (String c EmptyString))
  | JObj ps => Some (match own "0" ps with Some x => x | None => JUndefined end)
  | _ => Some JUndefined
  end.

(** [a || b] *)
Definition or (a b : JsVal) : JsVal := if truthy a then a else b.

(** [{ ...o, k: v }]: the properties of [o] in order, [k] overwritten in
    place or added last. *)
Fixpoint assign (k : string) (v : JsVal) (o : list (string * JsVal))
  : list (string * JsVal) :=
  match o with
  | [] => [(k, v)]
  | (k', v') :: o' =>
      if k' =? k then (k, v) :: o' else (k', v') :: assign k v o'
  end.

(** [xs.includes(x)] on an array of strings *)
Definition arrIncludes (xs : list string) (x : string) : bool :=
  existsb (String.eqb x) xs.

(** What every object inherits from [Object.prototype]: eleven functions,
    each with its [name] and its [length], and the accessor [__proto__],
    which gives the prototype of the object. *)
Inductive Builtin : Type :=
| BuiltinFunction (name : string) (length : nat)
| Prototype.

Definition Object_prototype : list (string * Builtin) :=
  [("constructor", BuiltinFunction "Object" 1);
   ("__defineGetter__", BuiltinFunction "__defineGetter__" 2);
   ("__defineSetter__", BuiltinFunction "__defineSetter__" 2);
   ("hasOwnProperty", BuiltinFunction "hasOwnProperty" 1);
   ("__lookupGetter__", BuiltinFunction "__lookupGetter__" 1);
   ("__lookupSetter__", BuiltinFunction "__lookupSetter__" 1);
   ("isPrototypeOf", BuiltinFunction "isPrototypeOf" 1);
   ("propertyIsEnumerable", BuiltinFunction "propertyIsEnumerable" 1);
   ("toString", BuiltinFunction "toString" 0);
   ("valueOf", BuiltinFunction "valueOf" 0);
   ("__proto__", Prototype);
   ("toLocaleString", BuiltinFunction "toLocaleString" 0)].

(** [o[k]] for an object literal or an object of parsed JSON and any
    key: the own property, else the inherited one, else [undefined]. *)
Inductive Member (A : Type) : Type :=
| Own (a : A)
| Inherited (b : Builtin)
| Missing.

Arguments Own {A} a.
Arguments Inherited {A} b.
Arguments Missing {A}.

Definition member {A : Type} (k : string) (o : list (string * A))
  : Member A :=
  match own k o with
  | Some a => Own a
  | None =>
      match own k Object_prototype with
      | Some b => Inherited b
      | None => Missing
      end
  end.

(** The names of [Object.prototype]. *)
Definition inherited (k : string) : bool :=
  match own k Object_prototype with
  | Some _ => true
  | None => false
  end.

(** A value read from a built-in object: a plain value, or again a
    built-in function or object, which is truthy and has [undefined]
    under every index. *)
Inductive Read : Type :=
| Plain (v : JsVal)
| Native.

(** The methods that every function inherits from [Function.prototype],
    besides those that [Object.prototype] names too. *)
Definition Function_prototype : list string := ["apply"; "bind"; "call"].

(** The properties of the function [Object] besides its name and length:
    its [prototype] and its static methods, as of ECMAScript 2024. *)
Definition Object_statics : list string :=
  ["prototype"; "assign"; "create"; "defineProperties"; "defineProperty";
   "entries"; "freeze"; "fromEntries"; "getOwnPropertyDescriptor";
   "getOwnPropertyDescriptors"; "getOwnPropertyNames";
   "getOwnPropertySymbols"; "getPrototypeOf"; "groupBy"; "hasOwn"; "is";
   "isExtensible"; "isFrozen"; "isSealed"; "keys"; "preventExtensions";
   "seal"; "setPrototypeOf"; "values"].

(** [b[k]] for a built-in [b] inherited from [Object.prototype].  A
    function has its own [name] and [length]; under the other names that
    it has or inherits it finds functions and objects; the prototype of
    [Object.prototype] is [null].  The accessors [caller] and
    [arguments] of [Function.prototype], which raise when they are read
    on a built-in function, are not modelled: the generator reads them
    only when the curriculum lists a topic of that name for a grade named
    like a function of [Object.prototype]. *)
Definition builtinMember (b : Builtin) (k : string) : Read :=
  match b with
  | BuiltinFunction name n =>
      if k =? "name" then Plain (JStr name)
      else if k =? "length" then Plain (JNum (Z.of_nat n))
      else if inherited k || arrIncludes Function_prototype k
              || ((name =? "Object") && arrIncludes Object_statics k)
      then Native
      else Plain JUndefined
  | Prototype =>
      match own k Object_prototype with
      | Some (BuiltinFunction _ _) => Native
      | Some Prototype => Plain JNull
      | None => Plain JUndefined
      end
  end.

(** The elements under the indexes of a value, [v[0]], [v[1]], ..: the
    items of an array and the characters of a string.  Every other value
    has [undefined] under every index. *)
Definition elements (v : JsVal) : list JsVal :=
  match v with
  | JArr items => items
  | JStr s =>
      map (fun c => JStr (String c EmptyString)) (list_ascii_of_string s)
  | _ => []
  end.

End Js.

(** ** Randomness *)

(** One result of [Math.random()], a double: the fraction
    [significand / 2 ^ scale]. *)
Record Draw : Type := { significand : N; scale : N }.

(** The doubles of [[0, 1)]: a significand of at most 53 bits, on a scale
    down to the smallest subnormal. *)
Definition inUnitInterval (d : Draw) : Prop :=
  (significand d < 2 ^ 53 /\ significand d < 2 ^ scale d
   /\ scale d <= 1074)%N.

(** The rounding of a product to the nearest double, ties to even.  The
    exact product is [p / 2 ^ scale]; the result is the numerator of the
    double on the same scale.  A numerator of more than 53 bits loses
    its [excess] low bits. *)
Definition roundToDouble (p : N) : N :=
  let excess := (N.size p - 53)%N in
  if (excess =? 0)%N then p
  else
    let q := N.shiftr p excess in
    let r := (p - N.shiftl q excess)%N in
    let half := N.shiftl 1 (excess - 1) in
    let q' := if (half <? r)%N || ((r =? half)%N && N.odd q)
              then (q + 1)%N else q in
    N.shiftl q' excess.

(** [Math.floor(d * n)] for the length [n] of an array or of a string. *)
Definition pick (d : Draw) (n : nat) : nat :=
  N.to_nat (N.shiftr (roundToDouble (significand d * N.of_nat n)) (scale d)).

(** A double of 40 bits, the first at or above [i / n]. *)
Definition drawFor (i n : nat) : Draw :=
  {| significand := (N.of_nat i * 2 ^ 40 + N.of_nat n - 1) / N.of_nat n;
     scale := 40 |}.

(** ** Module-level constants (server.js, lines 13-48) *)

Definition questionTypes : list string :=
  ["word problem"; "equation problem"; "multiple-choice";
   "real-world application"].

Definition contexts : list string :=
  ["in a store"; "during a trip"; "at a zoo"; "in a classroom"; "at a park"].

Definition difficulties : list string := ["easy"; "medium"; "hard"].

(** A canned problem, the object literal [{ question, answer, type }]. *)
Definition problem (question answer type : string) : JsVal :=
  JObj [("question", JStr question); ("answer", JStr answer);
        ("type", JStr type)].

(** The text of the canned problems is kept as the source file spells it;
    the generator only returns it. *)
Definition fallbackProblems : list (string * list (string * list JsVal)) :=
  [("10",
    [("geometry",
      [problem "What is the area of a triangle with base 6 cm and height 8 cm?" "24 cm²" "geometry";
       problem "Find the circumference of a circle with radius 5 cm (use π ≈ 3.14)." "31.4 cm" "geometry";
       problem "What is the measure of an interior angle of a regular pentagon?" "108 degrees" "geometry";
       problem "A rectangle has a length of 10 cm and a width of 4 cm. What is its perimeter?" "28 cm" "geometry";
       problem "What is the area of a circle with diameter 10 cm (use π ≈ 3.14)?" "78.5 cm²" "geometry";
       problem "Find the length of the hypotenuse of a right triangle with legs 3 cm and 4 cm." "5 cm" "geometry";
       problem "What is the sum of the interior angles of a hexagon?" "720 degrees" "geometry"]);
     ("functions",
      [problem "For the function f(x) = 2x + 3, what is f(4)?" "11" "functions";
       problem "What is the domain of the function f(x) = 1/(x-2)?" "All real numbers except x = 2" "functions";
       problem "Find the slope of the line given by f(x) = -3x + 5." "-3" "functions";
       problem "If f(x) = x², what is f(-3)?" "9" "functions"]);
     ("trigonometry",
      [problem "In a right triangle, if one angle is 30°, what is the sine of that angle?" "0.5" "trigonometry";
       problem "Find the cosine of 60°." "0.5" "trigonometry"]);
     ("quadratic equations",
      [problem "Solve the quadratic equation x² - 4x + 4 = 0." "x = 2" "quadratic equations";
       problem "What is the vertex of the parabola y = x² + 2x - 3?" "(-1, -4)" "quadratic equations"])])].

(** ** The history of recent questions (server.js, lines 13 and 199-202) *)

(** [questionHistory.push(q); if (questionHistory.length > 20)
    questionHistory.shift();] *)
Definition remember (questionHistory : list string) (q : string)
  : list string :=
  let pushed := (questionHistory ++ [q])%list in
  if (20 <? List.length pushed)%nat then tl pushed else pushed.

(** ** Requests, replies and the outside world *)

(** What the handler sends with [res.status(..)], [res.set(..)] and
    [res.json(..)]; the status is 200 unless set. *)
Record Response : Type :=
  { status : nat; headers : list (string * string); body : JsVal }.

Definition json (b : JsVal) : Response :=
  {| status := 200; headers := []; body := b |}.

Definition jsonWithStatus (st : nat) (b : JsVal) : Response :=
  {| status := st; headers := []; body := b |}.

(** [apiError.response], present when the provider answered with an error
    status. *)
Record ErrorResponse : Type := { errStatus : Z; errData : JsVal }.

(** A caught exception: [message] and, for an HTTP failure, [response]. *)
Record JsError : Type :=
  { message : string; response : option ErrorResponse }.

Definition TypeError (msg : string) : JsError :=
  {| message := msg; response := None |}.

(** The settlement of one [axios.post]: fulfilled with [response.data], or
    rejected. *)
Inductive AxiosResult : Type :=
| Fulfilled (data : JsVal)
| Rejected (apiError : JsError).

(** The outside world of one request: the settlement of the provider call
    made by the invocation with a given [retryCount], and the draws of
    [Math.random()] inside that invocation, numbered from 0. *)
Record World : Type :=
  { axios_post : nat -> AxiosResult;
    Math_random : nat -> nat -> Draw }.

(** Effects other than the reply. *)
Inductive Event : Type :=
| AxiosPost (bearer prompt : string)
| SetTimeout (ms : nat) (retryCount : nat).

(** How the handler ends: a reply was sent, or its promise was rejected
    with an exception and this handler sent nothing. *)
Inductive Outcome : Type :=
| Sent (r : Response)
| Threw (error : string).

Record Run : Type :=
  { outcome : Outcome; history : list string; events : list Event }.

(** The query string of the request.  Parameters are absent or strings. *)
Record Query : Type :=
  { grade : option string; topic : option string; nonce : option string }.

Definition dquote : string := String (ascii_of_nat 34) EmptyString.

(** ** The generator (server.js, lines 127-249) *)

(** What one invocation of [generateProblem] does last: it replies, or it
    schedules the next invocation with [setTimeout]. *)
Inductive Step : Type :=
| Respond (r : Response)
| Retry (ms : nat).

Section Generator.

(** [JSON.parse]; [None] is the SyntaxError it raises. *)
Variable JSON_parse : string -> option JsVal.

(** The variables the closure captures. *)
Variables XAI_API_KEY normalizedGrade normalizedTopic : string.
Variable world : World.

(** *** The fallback problem (lines 130-133, repeated at 242-245) *)

Definition placeholder : JsVal :=
  problem
    ("Fallback problem for grade " ++ normalizedGrade ++ " ("
       ++ normalizedTopic ++ "): Solve a basic problem related to "
       ++ normalizedTopic ++ ".")
    "N/A" normalizedTopic.

(** [fallbackProblems[normalizedGrade]?.[normalizedTopic] || [ {..} ]],
    given by its elements [fallback[0]], [fallback[1]], .., of which the
    next line takes one.  An array of the bank is truthy, whatever its
    length.  A name inherited from [Object.prototype] brings a built-in
    function or object, which is truthy and has no elements: whatever
    index its [length] leads to, what is taken is [undefined].  Read on a
    built-in function, the topic may also bring its name, a string, or
    its length, a number. *)
Definition fallback : list JsVal :=
  match Js.member normalizedGrade fallbackProblems with
  | Js.Own byTopic =>
      match Js.member normalizedTopic byTopic with
      | Js.Own problems => problems
      | Js.Inherited _ => []
      | Js.Missing => [placeholder]
      end
  | Js.Inherited b =>
      match Js.builtinMember b normalizedTopic with
      | Js.Native => []
      | Js.Plain v => if Js.truthy v then Js.elements v else [placeholder]
      end
  | Js.Missing => [placeholder]
  end.

(** [fallback[Math.floor(Math.random() * fallback.length)]]: the element
    under the index, and [undefined] where [fallback] has no elements. *)
Definition fallbackProblem (d : Draw) : JsVal :=
  nth (pick d (List.length fallback)) fallback JUndefined.

(** *** The prompt (lines 138-141) *)

Definition choose (options : list string) (d : Draw) : string :=
  nth (pick d (List.length options)) options "undefined".

Definition prompt (retryCount : nat) : string :=
  let randomType := choose questionTypes (Math_random world retryCount 0) in
  let randomContext := choose contexts (Math_random world retryCount 1) in
  let randomDifficulty :=
    choose difficulties (Math_random world retryCount 2) in
  "Generate a unique " ++ randomType ++ " math problem for grade "
    ++ normalizedGrade ++ " on the topic of " ++ normalizedTopic
    ++ " in a " ++ randomContext
    ++ ". The problem must be appropriate for Grade " ++ normalizedGrade
    ++ " students, focusing on " ++ normalizedTopic
    ++ " concepts (e.g., triangles, circles, angles for geometry). The problem should be "
    ++ randomDifficulty
    ++ " difficulty. Ensure it differs from previous problems by varying numbers and scenarios. Return the response as a JSON object: {"
    ++ dquote ++ "question" ++ dquote ++ ": " ++ dquote ++ dquote ++ ", "
    ++ dquote ++ "answer" ++ dquote ++ ": " ++ dquote ++ dquote ++ ", "
    ++ dquote ++ "options" ++ dquote
    ++ ": []}. For multiple-choice questions, provide exactly 4 options in the "
    ++ dquote ++ "options" ++ dquote
    ++ " array, with the correct answer included. For non-multiple-choice questions, set "
    ++ dquote ++ "options" ++ dquote ++ " to an empty array.".

(** *** The inner [try] (lines 177-190)

    [None] stands for any exception raised inside it: all of them are
    caught by the same handler, which schedules a retry. *)
Definition parseProblem (content : JsVal) : option JsVal :=
  match content with
  | JStr text =>
      if negb (startsWith text "{") || negb (endsWith text "}") then None
      else
        match JSON_parse text with
        | None => None
        | Some problemData =>
            match Js.prop problemData "question",
                  Js.prop problemData "answer" with
            | Some question, Some answer =>
                if negb (Js.truthy question) || negb (Js.truthy answer)
                then None
                else Some problemData
            | _, _ => None
            end
        end
  | _ => None (* [content.startsWith] is not a function *)
  end.

(** [{ ...problemData, type: normalizedTopic }] *)
Definition withType (problemData : JsVal) : JsVal :=
  match problemData with
  | JObj props => JObj (Js.assign "type" (JStr normalizedTopic) props)
  | _ => JObj [("type", JStr normalizedTopic)]
  end.

Definition noStore (b : JsVal) : Response :=
  {| status := 200; headers := [("Cache-Control", "no-store")];
     body := b |}.

(** *** The outer [try] after the call has resolved (lines 167-205)

    [inl] is an exception that leaves the block for [catch (apiError)].
    The history is returned with the step. *)
Definition afterResponse (questionHistory : list string) (data : JsVal)
  : JsError + (Step * list string) :=
  match Js.prop data "choices" with
  | None => inl (TypeError "Cannot read properties of undefined (reading 'choices')")
  | Some choices =>
      if negb (Js.truthy choices) then inr (Retry 1000, questionHistory)
      else
        match Js.elem0 choices with
        | None => inl (TypeError "Cannot read properties of undefined (reading '0')")
        | Some first =>
            let content :=
              Js.optProp (Js.optProp first "message") "content" in
            if negb (Js.truthy content)
            then inr (Retry 1000, questionHistory)
            else
              match parseProblem content with
              | None => inr (Retry 1000, questionHistory)
              | Some problemData =>
                  match Js.prop problemData "question" with
                  | Some (JStr question) =>
                      let normalizedQuestion :=
                        normalizeQuestion question in
                      if Js.arrIncludes questionHistory normalizedQuestion
                      then inr (Retry 1000, questionHistory)
                      else inr (Respond (noStore (withType problemData)),
                                remember questionHistory normalizedQuestion)
                  | _ => inl (TypeError "question.toLowerCase is not a function")
                  end
              end
        end
  end.

(** *** [catch (apiError)] (lines 206-248) *)

Definition statusIs (apiError : JsError) (n : Z) : bool :=
  match response apiError with
  | Some r => (errStatus r =? n)%Z
  | None => false
  end.

(** [[429, 400, 500].includes(apiError.response?.status)] *)
Definition transient (apiError : JsError) : bool :=
  statusIs apiError 429 || statusIs apiError 400 || statusIs apiError 500.

(** [apiError.response?.data?.error?.message ||
     apiError.response?.data?.error || apiError.message] *)
Definition errorMessage (apiError : JsError) : JsVal :=
  let data :=
    match response apiError with
    | Some r => errData r
    | None => JUndefined
    end in
  let error := Js.optProp data "error" in
  Js.or (Js.or (Js.optProp error "message") error)
        (JStr (message apiError)).

(** [typeof v === 'string' && v.includes(needle)] *)
Definition mentions (v : JsVal) (needle : string) : bool :=
  match v with
  | JStr s => includes s needle
  | _ => false
  end.

Definition isModelError (apiError : JsError) : bool :=
  statusIs apiError 404 && mentions (errorMessage apiError) "model".

Definition isResourceNotFound (apiError : JsError) : bool :=
  statusIs apiError 404
  && mentions (errorMessage apiError) "resource was not found".

Definition errorReply (error details : string) (apiError : JsError)
  : Response :=
  let r :=
    match response apiError with
    | Some r => r
    | None => {| errStatus := 0; errData := JUndefined |}
    end in
  jsonWithStatus 400
    (JObj [("error", JStr error); ("details", JStr details);
           ("status", JNum (errStatus r)); ("responseData", errData r)]).

Definition modelDetails : string :=
  "The specified model (grok-3) is not available. Please check xAI API documentation at https://docs.x.ai/ or contact support with team ID 16956b76-3090-4a12-8ab8-296296a191a3.".

Definition endpointDetails : string :=
  "The xAI API endpoint was not found. Please verify the endpoint URL in the xAI API documentation at https://docs.x.ai/ or contact support with team ID 16956b76-3090-4a12-8ab8-296296a191a3.".

Definition onApiError (questionHistory : list string) (retryCount : nat)
           (apiError : JsError) : Step * list string :=
  if transient apiError then (Retry 1000, questionHistory)
  else if isModelError apiError then
    (Respond (errorReply "Model access error" modelDetails apiError),
     questionHistory)
  else if isResourceNotFound apiError then
    (Respond (errorReply "API endpoint error" endpointDetails apiError),
     questionHistory)
  else
    (Respond (json (fallbackProblem (Math_random world retryCount 3))),
     questionHistory).

(** *** One invocation below the retry limit (lines 138-248) *)
Definition attempt (questionHistory : list string) (retryCount : nat)
  : Step * list string :=
  match axios_post world retryCount with
  | Rejected apiError => onApiError questionHistory retryCount apiError
  | Fulfilled data =>
      match afterResponse questionHistory data with
      | inl apiError => onApiError questionHistory retryCount apiError
      | inr result => result
      end
  end.

(** *** Retry limit reached (lines 128-136) *)
Definition exhausted (questionHistory : list string) (retryCount : nat)
  : Run :=
  {| outcome := Sent (json (fallbackProblem (Math_random world retryCount 0)));
     history := questionHistory;
     events := [] |}.

(** *** [generateProblem]

    The invocations of one request, chained by [setTimeout], run to the
    reply with no invocation of another request in between.  [budget] is
    [maxRetries - retryCount], so that [budget = 0] is the test
    [retryCount >= maxRetries]; [generateProblem_eq] below gives the
    recursion in the shape of the source. *)
Fixpoint retryLoop (budget retryCount : nat) (questionHistory : list string)
  : Run :=
  match budget with
  | O => exhausted questionHistory retryCount
  | S budget' =>
      let call := AxiosPost XAI_API_KEY (prompt retryCount) in
      match attempt questionHistory retryCount with
      | (Respond r, questionHistory') =>
          {| outcome := Sent r; history := questionHistory';
             events := [call] |}
      | (Retry ms, questionHistory') =>
          let rest := retryLoop budget' (S retryCount) questionHistory' in
          {| outcome := outcome rest; history := history rest;
             events := call :: SetTimeout ms (S retryCount) :: events rest |}
      end
  end.

Definition generateProblem (retryCount maxRetries : nat)
           (questionHistory : list string) : Run :=
  retryLoop (maxRetries - retryCount) retryCount questionHistory.

End Generator.

(** ** The route handler (server.js, lines 100-264) *)

Section Handler.

Variable JSON_parse : string -> option JsVal.

(** [decodeURIComponent]; [None] is the URIError it raises on a malformed
    escape sequence. *)
Variable decodeURIComponent : string -> option string.

(** The curriculum map loaded from [curriculum-map.json]: for each grade,
    the names of its topics. *)
Variable curriculumTopics : list (string * list string).

(** [process.env.XAI_API_KEY] *)
Variable env_XAI_API_KEY : option string.

Definition errorBody (text : string) : JsVal := JObj [("error", JStr text)].

(** The outermost [catch] (lines 252-263).  [normalizedGrade] and
    [normalizedTopic] are declared with [const] inside the [try] block,
    so they are not in scope in the [catch] block: its first statement
    raises a ReferenceError and the handler sends nothing. *)
Definition generalError (questionHistory : list string) : Run :=
  {| outcome := Threw "ReferenceError: normalizedGrade is not defined";
     history := questionHistory; events := [] |}.

Definition reply (r : Response) (questionHistory : list string) : Run :=
  {| outcome := Sent r; history := questionHistory; events := [] |}.

(** [topic ? decodeURIComponent(topic).trim().toLowerCase() : ''] *)
Definition normalizeTopic (topic : option string) : option string :=
  match topic with
  | None | Some EmptyString => Some EmptyString
  | Some t =>
      match decodeURIComponent t with
      | Some decoded => Some (toLowerCase (trim decoded))
      | None => None
      end
  end.

(** [grade ? grade.toString() : ''] *)
Definition normalizeGrade (grade : option string) : string :=
  match grade with
  | Some g => g
  | None => EmptyString
  end.

Definition maxRetries : nat := 7.

Definition handler (query : Query) (world : World)
           (questionHistory : list string) : Run :=
  match normalizeTopic (topic query) with
  | None => generalError questionHistory
  | Some normalizedTopic =>
      let normalizedGrade := normalizeGrade (grade query) in
      if (normalizedGrade =? EmptyString) || (normalizedTopic =? EmptyString) then
        reply (jsonWithStatus 400
                 (errorBody ("Missing grade (" ++ normalizedGrade
                               ++ ") or topic (" ++ normalizedTopic ++ ")")))
              questionHistory
      else
        let invalid :=
          reply (jsonWithStatus 400
                   (errorBody ("Invalid grade (" ++ normalizedGrade
                                 ++ ") or topic (" ++ normalizedTopic ++ ")")))
                questionHistory in
        match Js.member normalizedGrade curriculumTopics with
        | Js.Missing => invalid
        | Js.Inherited _ =>
            (* a built-in function or object is truthy and has no [map]:
               a TypeError, caught at line 252 *)
            generalError questionHistory
        | Js.Own topics =>
            if negb (Js.arrIncludes (map toLowerCase topics) normalizedTopic)
            then invalid
            else
              match env_XAI_API_KEY with
              | None | Some EmptyString =>
                  reply (jsonWithStatus 500
                           (errorBody "Server configuration error: Missing API key"))
                        questionHistory
              | Some key =>
                  generateProblem JSON_parse key normalizedGrade
                                  normalizedTopic world 0 maxRetries
                                  questionHistory
              end
        end
  end.

End Handler.

(** ** The normaliser as the specification words it

    A second definition, written from the specification's sentence and
    compared with [normalizeQuestion] in [normalizeQuestion_spec]. *)

Module StringOrder <: TotalLeBool.
Definition t := string.
Definition leb := String.leb.
Definition leb_total
  : forall a b : t, leb a b = true \/ leb b a = true := String.leb_total.
End StringOrder.

Module StringSort := Sort StringOrder.

Module Spec.

Definition lowercaseLetter (c : ascii) : bool :=
  (("a" <=? c) && (c <=? "z"))%char.

Definition digit (c : ascii) : bool :=
  (("0" <=? c) && (c <=? "9"))%char.

Definition whitespace (c : ascii) : bool :=
  existsb (Ascii.eqb c)
          [" "%char; "009"%char; "010"%char; "011"%char; "012"%char;
           "013"%char; "160"%char].

(** Deleting every character that is not a lower-case letter, a digit or
    whitespace. *)
Definition delete (s : string) : string :=
  string_of_list_ascii
    (filter (fun c => lowercaseLetter c || digit c || whitespace c)
            (list_ascii_of_string s)).

(** The fields cut at every whitespace character. *)
Fixpoint fields (s : string) : list string :=
  match s with
  | EmptyString => [EmptyString]
  | String c t =>
      if whitespace c then EmptyString :: fields t
      else
        match fields t with
        | f :: fs => String c f :: fs
        | [] => [String c EmptyString]
        end
  end.

Definition nonEmpty (s : string) : bool := negb (s =? EmptyString).

(** Splitting on whitespace runs: a run is one separator, so the empty
    fields that lie between two characters of a run are no tokens.  The
    first and the last field stay, empty or not. *)
Definition tokens (s : string) : list string :=
  match fields s with
  | [] => []
  | first :: rest =>
      match rest with
      | [] => [first]
      | _ => first :: filter nonEmpty (removelast rest)
               ++ [last rest EmptyString]
      end
  end%list.

(** Lower-casing, deleting, splitting on whitespace runs, sorting the
    tokens (here with the merge sort of the standard library) and
    rejoining them with single spaces. *)
Definition normalize (q : string) : string :=
  String.concat " " (StringSort.sort (tokens (delete (toLowerCase q)))).

End Spec.

(** The tokens after the first field: what the scan emits once it is
    inside a separator. *)
Definition laterTokens (fs : list string) : list string :=
  (filter Spec.nonEmpty (removelast fs) ++ [last fs EmptyString])%list.

(** The order of [sort]. *)
Definition le_string (a b : string) : Prop := String.leb a b = true.

(** ** Notions used in the statements *)

(** A text lower-cased and stripped of the deleted characters. *)
Definition clean (s : string) : string := replace_nonWord (toLowerCase s).

(** A word that keeps a letter or a digit when it is cleaned. *)
Definition keepsText (w : string) : Prop := clean w <> EmptyString.

(** The variants of a question: another case, other deleted characters,
    or another order of its words, each of which keeps some text. *)
Inductive variant (q : string) : string -> Prop :=
| variant_case q' : toLowerCase q = toLowerCase q' -> variant q q'
| variant_deleted q' : clean q = clean q' -> variant q q'
| variant_word_order q' :
    Permutation (split_ws q) (split_ws q') ->
    (forall w, In w (split_ws q) -> w <> EmptyString -> keepsText w) ->
    variant q q'.

(** The number of provider calls among the effects of a run. *)
Fixpoint calls (es : list Event) : nat :=
  match es with
  | [] => 0
  | AxiosPost _ _ :: es' => S (calls es')
  | SetTimeout _ _ :: es' => calls es'
  end.

Definition attempts (r : Run) : nat := calls (events r).

(** The delays of the scheduled invocations, in order. *)
Fixpoint delays (es : list Event) : list nat :=
  match es with
  | [] => []
  | AxiosPost _ _ :: es' => delays es'
  | SetTimeout ms _ :: es' => ms :: delays es'
  end.

(** [response.data.choices[0].message.content] when line 169 lets it
    through: the reply has truthy [choices] and a truthy completion. *)
Definition completion (data : JsVal) : option JsVal :=
  match Js.prop data "choices" with
  | Some choices =>
      if Js.truthy choices then
        match Js.elem0 choices with
        | Some first =>
            let content := Js.optProp (Js.optProp first "message") "content" in
            if Js.truthy content then Some content else None
        | None => None
        end
      else None
  | None => None
  end.

(** The retry conditions: a reply without completion; a completion that
    fails the brace check, does not parse, or parses to an object without
    a truthy question and answer; a question whose normal form is in the
    history; a failure with status 429, 400 or 500. *)
Inductive retryCondition (JSON_parse : string -> option JsVal)
          (questionHistory : list string) : AxiosResult -> Prop :=
| NoCompletion data :
    Js.prop data "choices" <> None -> completion data = None ->
    retryCondition JSON_parse questionHistory (Fulfilled data)
| NoProblem data content :
    completion data = Some content ->
    parseProblem JSON_parse content = None ->
    retryCondition JSON_parse questionHistory (Fulfilled data)
| Duplicate data content problemData question :
    completion data = Some content ->
    parseProblem JSON_parse content = Some problemData ->
    Js.prop problemData "question" = Some (JStr question) ->
    In (normalizeQuestion question) questionHistory ->
    retryCondition JSON_parse questionHistory (Fulfilled data)
| TransientStatus apiError :
    transient apiError = true ->
    retryCondition JSON_parse questionHistory (Rejected apiError).

(** The question of a generated reply, as the caller reads it. *)
Definition generatedQuestion (r : Run) : option string :=
  match outcome r with
  | Sent resp =>
      match headers resp, Js.prop (body resp) "question" with
      | [("Cache-Control", "no-store")], Some (JStr q) => Some q
      | _, _ => None
      end
  | Threw _ => None
  end.

(** The states of the server.  The history is empty when the process
    starts.  An invocation of [generateProblem] runs without interruption
    from the settlement of its provider call to its reply or its
    [setTimeout], so that the invocations of concurrent requests
    interleave as wholes: a state is reached by any sequence of
    invocations, of any requests. *)
Inductive reachable (JSON_parse : string -> option JsVal)
  : list string -> Prop :=
| reachable_start : reachable JSON_parse []
| reachable_invocation questionHistory g t world retryCount :
    reachable JSON_parse questionHistory ->
    reachable JSON_parse
              (snd (attempt JSON_parse g t world questionHistory retryCount)).

(** Requests handled one after the other, each run to its reply before
    the next starts; the runs and the last history. *)
Fixpoint serve (JSON_parse : string -> option JsVal)
         (decodeURIComponent : string -> option string)
         (curriculumTopics : list (string * list string))
         (env_XAI_API_KEY : option string)
         (requests : list (Query * World)) (questionHistory : list string)
  : list Run * list string :=
  match requests with
  | [] => ([], questionHistory)
  | (query, world) :: requests' =>
      let run := handler JSON_parse decodeURIComponent curriculumTopics
                         env_XAI_API_KEY query world questionHistory in
      let (runs, final) :=
        serve JSON_parse decodeURIComponent curriculumTopics env_XAI_API_KEY
              requests' (history run) in
      (run :: runs, final)
  end.

(** The last [n] entries of a list. *)
Definition lastn {A : Type} (n : nat) (l : list A) : list A :=
  skipn (List.length l - n) l.

(** A request the validation of lines 107-118 lets through, with the
    grade and topic it is normalised to. *)
Definition validRequest (decodeURIComponent : string -> option string)
           (curriculumTopics : list (string * list string))
           (query : Query) (normalizedGrade normalizedTopic : string) : Prop :=
  normalizeTopic decodeURIComponent (topic query) = Some normalizedTopic
  /\ normalizeGrade (grade query) = normalizedGrade
  /\ normalizedGrade <> EmptyString /\ normalizedTopic <> EmptyString
  /\ exists topics,
      Js.own normalizedGrade curriculumTopics = Some topics
      /\ In normalizedTopic (map toLowerCase topics).

(** An invocation whose reply carries a question that is already in the
    history, in normal form. *)
Definition duplicateAt (JSON_parse : string -> option JsVal) (world : World)
           (questionHistory : list string) (retryCount : nat) : Prop :=
  exists data text problemData question,
    axios_post world retryCount = Fulfilled data
    /\ completion data = Some (JStr text)
    /\ JSON_parse text = Some problemData
    /\ Js.prop problemData "question" = Some (JStr question)
    /\ In (normalizeQuestion question) questionHistory.

(** A provider reply that makes the attempt successful: its completion is
    a brace-delimited text that parses to an object with a question, a
    non-empty string, and an answer, and the question is no duplicate. *)
Definition successfulReply (JSON_parse : string -> option JsVal)
           (questionHistory : list string) (result : AxiosResult)
           (problemData : JsVal) (question : string) (answer : JsVal) : Prop :=
  exists data text,
    result = Fulfilled data
    /\ completion data = Some (JStr text)
    /\ startsWith text "{" = true /\ endsWith text "}" = true
    /\ JSON_parse text = Some problemData
    /\ Js.prop problemData "question" = Some (JStr question)
    /\ question <> EmptyString
    /\ Js.prop problemData "answer" = Some answer
    /\ Js.truthy answer = true
    /\ ~ In (normalizeQuestion question) questionHistory.

(** ** Sample data for the examples *)

Module Sample.

(** The JSON text of an object with the fields question, answer and
    options, the last an empty array. *)
Definition problemText (q a : string) : string :=
  "{" ++ dquote ++ "question" ++ dquote ++ ":" ++ dquote ++ q ++ dquote
      ++ "," ++ dquote ++ "answer" ++ dquote ++ ":" ++ dquote ++ a ++ dquote
      ++ "," ++ dquote ++ "options" ++ dquote ++ ":[]}".

Definition problemObject (q a : string) : JsVal :=
  JObj [("question", JStr q); ("answer", JStr a); ("options", JArr [])].

(** Twenty-five questions with distinct normal forms. *)
Definition questions : list string :=
  map (fun n =>
         "What is " ++ String (ascii_of_nat (97 + n)) EmptyString ++ " + 1?")
      (seq 0 25).

Definition problems : list (string * string) :=
  [("+ 2 3", "5"); ("2 + 3", "5"); ("What is 2+2?", "4");
   ("Is what: 2+2", "4"); (EmptyString, "5"); ("What is 3+3?", EmptyString)]
    ++ map (fun q => (q, "1")) questions.

(** [JSON.parse] on the completions used in the examples: the texts of
    [problems] parse to their objects. *)
Definition parse (text : string) : option JsVal :=
  Js.own text
         (map (fun '(q, a) => (problemText q a, problemObject q a)) problems).

(** [decodeURIComponent] on the topics used in the examples: a text
    without percent sign is its own decoding, and a lone percent sign is
    a malformed escape sequence. *)
Definition decode (s : string) : option string :=
  if includes s "%" then None else Some s.

Definition curriculum : list (string * list string) :=
  [("9", ["Algebra"; "Statistics"]);
   ("10", ["Geometry"; "Functions"; "Trigonometry"; "Quadratic Equations"])].

(** The body of a chat completion whose text is [content]. *)
Definition chatCompletion (content : string) : JsVal :=
  JObj [("id", JStr "c-1");
        ("choices",
         JArr [JObj [("index", JNum 0);
                     ("message",
                      JObj [("role", JStr "assistant");
                            ("content", JStr content)])]])].

Definition half : Draw := {| significand := 1; scale := 1 |}.

(** A world in which every provider call settles the same way. *)
Definition always (r : AxiosResult) : World :=
  {| axios_post := fun _ => r; Math_random := fun _ _ => half |}.

Definition answers (q a : string) : World :=
  always (Fulfilled (chatCompletion (problemText q a))).

Definition unreachable : JsError :=
  {| message := "connect ECONNREFUSED"; response := None |}.

Definition httpError (st : Z) (msg : string) : JsError :=
  {| message := "Request failed";
     response :=
       Some {| errStatus := st;
               errData := JObj [("error", JObj [("message", JStr msg)])] |} |}.

Definition request (g t : string) : Query :=
  {| grade := Some g; topic := Some t; nonce := None |}.

(** One request per sample question, each answered at the first call. *)
Definition requests : list (Query * World) :=
  map (fun q => (request "10" "Geometry", answers q "1")) questions.

End Sample.

(** ** Further notions used in the statements *)

(** The characters of a string. *)
Definition chars (s : string) : list ascii := list_ascii_of_string s.

(** A lower-case letter a-z, a digit, or the space character. *)
Definition plainChar (c : ascii) : bool :=
  between 97 122 c || between 48 57 c || (code c =? 32)%nat.

(** A text without whitespace. *)
Definition spaceFree (w : string) : Prop :=
  forall c, In c (chars w) -> Spec.whitespace c = false.

(** A well-formed problem of a given topic: an object whose question is a
    non-empty string, whose answer is truthy and whose type is the
    topic. *)
Definition wellFormedProblem (t : string) (b : JsVal) : Prop :=
  exists question answer,
    Js.prop b "question" = Some (JStr question)
    /\ question <> EmptyString
    /\ Js.prop b "answer" = Some answer
    /\ Js.truthy answer = true
    /\ Js.prop b "type" = Some (JStr t).

(** The replies an invocation of the generator can send: the parsed
    problem with its type, one of the two configuration errors, or a
    fallback problem chosen with a draw of the world. *)
Inductive possibleReply (normalizedGrade normalizedTopic : string)
          (world : World) : Response -> Prop :=
| reply_generated problemData question answer :
    Js.prop problemData "question" = Some (JStr question) ->
    question <> EmptyString ->
    Js.prop problemData "answer" = Some answer ->
    Js.truthy answer = true ->
    possibleReply normalizedGrade normalizedTopic world
                  (noStore (withType normalizedTopic problemData))
| reply_model apiError :
    possibleReply normalizedGrade normalizedTopic world
                  (errorReply "Model access error" modelDetails apiError)
| reply_endpoint apiError :
    possibleReply normalizedGrade normalizedTopic world
                  (errorReply "API endpoint error" endpointDetails apiError)
| reply_fallback i j :
    possibleReply normalizedGrade normalizedTopic world
                  (json (fallbackProblem normalizedGrade normalizedTopic
                                         (Math_random world i j))).

(** The bearer tokens of the provider calls of a run. *)
Fixpoint bearers (es : list Event) : list string :=
  match es with
  | [] => []
  | AxiosPost bearer _ :: es' => bearer :: bearers es'
  | SetTimeout _ _ :: es' => bearers es'
  end.

(** All the draws of a world lie in the unit interval. *)
Definition unitDraws (world : World) : Prop :=
  forall i j, inUnitInterval (Math_random world i j).

(** ** More sample data *)

Module Edge.

(** The JSON text of an object whose question is the number 5. *)
Definition numericText : string :=
  "{" ++ dquote ++ "question" ++ dquote ++ ":5," ++ dquote ++ "answer"
      ++ dquote ++ ":" ++ dquote ++ "x" ++ dquote ++ "}".

Definition numericObject : JsVal :=
  JObj [("question", JNum 5); ("answer", JStr "x")].

(** The JSON text of a problem that brings its own type. *)
Definition typedText : string :=
  "{" ++ dquote ++ "type" ++ dquote ++ ":" ++ dquote ++ "algebra" ++ dquote
      ++ "," ++ dquote ++ "question" ++ dquote ++ ":" ++ dquote ++ "2 + 3"
      ++ dquote ++ "," ++ dquote ++ "answer" ++ dquote ++ ":" ++ dquote
      ++ "5" ++ dquote ++ "}".

Definition typedObject : JsVal :=
  JObj [("type", JStr "algebra"); ("question", JStr "2 + 3");
        ("answer", JStr "5")].

(** [JSON.parse] on these two texts. *)
Definition parse (text : string) : option JsVal :=
  Js.own text [(numericText, numericObject); (typedText, typedObject)].

(** A curriculum with a topic named like a member of [Object.prototype]. *)
Definition curriculum : list (string * list string) :=
  [("10", ["Geometry"; "Constructor"])].

(** The double 0.5714285714285714, just below 4/7: its product with 7
    is rounded up to 4. *)
Definition nearFourSevenths : Draw :=
  {| significand := 2573485501354569; scale := 52 |}.

End Edge.

(** * Properties *)

(** ** Examples *)

Example normalizeQuestion_sorts_words :
  normalizeQuestion "What is 2+2?" = "22 is what".
Proof. reflexivity. Qed.

Example split_ws_keeps_outer_empty_tokens :
  split_ws "  a  b " = [EmptyString; "a"; "b"; EmptyString]
  /\ split_ws EmptyString = [EmptyString]
  /\ split_ws "a b" = ["a"; "b"].
Proof. repeat split. Qed.

Example trim_then_lower : toLowerCase (trim "  Quadratic Equations ")
                          = "quadratic equations".
Proof. reflexivity. Qed.

(** Grade 10, geometry, and a provider whose completions are never JSON:
    seven attempts, then one of the seven canned geometry problems. *)
Example malformed_completions_end_in_the_bank :
  let world :=
    Sample.always
      (Fulfilled (Sample.chatCompletion "Sure! Here is a problem.")) in
  let run := handler Sample.parse Sample.decode Sample.curriculum
                     (Some "key") (Sample.request "10" "geometry") world [] in
  attempts run = 7
  /\ delays (events run) = repeat 1000 7
  /\ List.length (fallback "10" "geometry") = 7
  /\ In (outcome run)
        (map (fun p => Sent (json p)) (fallback "10" "geometry")).
Proof. vm_compute. tauto. Qed.

(** The product of the double 0.5714285714285714 with 7 is below 4 and is
    rounded to 4: index 4 is taken. *)
Example product_rounded_up :
  (significand Edge.nearFourSevenths * 7
   < 4 * 2 ^ scale Edge.nearFourSevenths)%N
  /\ pick Edge.nearFourSevenths 7 = 4.
Proof. split; reflexivity. Qed.

(** Names that objects inherit: a grade that only [Object.prototype]
    names makes the validation raise; such a topic brings a function from
    the bank, and the reply is [undefined]; read on the function
    [Object], the topic [name] brings a string, of which one character is
    sent. *)
Example inherited_names_are_found :
  outcome (handler Sample.parse Sample.decode Sample.curriculum
                   (Some "key") (Sample.request "constructor" "Geometry")
                   (Sample.answers "2 + 3" "5") [])
  = Threw "ReferenceError: normalizedGrade is not defined"
  /\ fallbackProblem "10" "constructor" Sample.half = JUndefined
  /\ fallbackProblem "constructor" "name" Sample.half = JStr "e"
  /\ fallbackProblem "toString" "length" Sample.half
     = placeholder "toString" "length".
Proof. repeat split. Qed.

(** ** Characters and deletion *)

Lemma isSpace_whitespace (c : ascii) : isSpace c = Spec.whitespace c.
Proof. destruct c as [[] [] [] [] [] [] [] []]; reflexivity. Qed.

Lemma nonWordChar_kept (c : ascii) :
  nonWordChar c
  = negb (Spec.lowercaseLetter c || Spec.digit c || Spec.whitespace c).
Proof. destruct c as [[] [] [] [] [] [] [] []]; reflexivity. Qed.

Lemma replace_nonWord_delete (s : string) : replace_nonWord s = Spec.delete s.
Proof.
  unfold Spec.delete.
  induction s as [|c t IH]; simpl; [reflexivity|].
  rewrite nonWordChar_kept, IH.
  destruct (Spec.lowercaseLetter c || Spec.digit c || Spec.whitespace c);
    reflexivity.
Qed.

(** ** Splitting *)

Lemma append_empty_r (s : string) : s ++ EmptyString = s.
Proof. induction s; simpl; congruence. Qed.

Lemma append_assoc (a b c : string) : (a ++ b) ++ c = a ++ (b ++ c).
Proof. induction a; simpl; congruence. Qed.

Lemma fields_nonempty (s : string) : Spec.fields s <> [].
Proof.
  induction s as [|c t IH]; simpl; [discriminate|].
  destruct (Spec.whitespace c); [discriminate|].
  destruct (Spec.fields t); discriminate.
Qed.

Lemma laterTokens_cons (f : string) (fs : list string) :
  fs <> [] ->
  laterTokens (f :: fs)
  = (if Spec.nonEmpty f then f :: laterTokens fs else laterTokens fs).
Proof.
  intros Hfs. unfold laterTokens.
  destruct fs as [|g gs]; [congruence|].
  cbn [removelast last filter].
  destruct (Spec.nonEmpty f); reflexivity.
Qed.

Lemma split_ws_from_fields (s : string) :
  (forall tok,
      split_ws_from s tok false
      = match Spec.fields s with
        | f :: fs =>
            (tok ++ f) :: match fs with [] => [] | _ => laterTokens fs end
        | [] => []
        end)
  /\ split_ws_from s EmptyString true = laterTokens (Spec.fields s).
Proof.
  induction s as [|c t [IHtok IHsep]].
  - split; [intros tok; simpl; now rewrite append_empty_r | reflexivity].
  - pose proof (fields_nonempty t) as Hne.
    split.
    + intros tok. simpl. rewrite isSpace_whitespace.
      destruct (Spec.whitespace c).
      * rewrite IHsep. simpl. rewrite append_empty_r.
        destruct (Spec.fields t); [congruence | reflexivity].
      * rewrite IHtok. destruct (Spec.fields t) as [|f fs]; [congruence|].
        rewrite append_assoc. reflexivity.
    + simpl. rewrite isSpace_whitespace.
      destruct (Spec.whitespace c).
      * rewrite IHsep. rewrite laterTokens_cons by assumption. reflexivity.
      * rewrite IHtok. destruct (Spec.fields t) as [|f fs]; [congruence|].
        simpl. destruct fs as [|g gs]; [reflexivity|].
        rewrite (laterTokens_cons (String c f) (g :: gs)) by discriminate.
        reflexivity.
Qed.

Lemma split_ws_tokens (s : string) : split_ws s = Spec.tokens s.
Proof.
  unfold split_ws, Spec.tokens.
  destruct (split_ws_from_fields s) as [H _]. rewrite H.
  destruct (Spec.fields s) as [|f fs]; [reflexivity|].
  destruct fs; reflexivity.
Qed.

(** Cleaning a text cleans its fields, and its tokens too when every word
    keeps some text. *)

Lemma whitespace_clean (c : ascii) :
  Spec.whitespace c = true ->
  lowerChar c = c /\ nonWordChar c = false.
Proof.
  destruct c as [[] [] [] [] [] [] [] []]; try discriminate;
    intros _; split; reflexivity.
Qed.

Lemma lowerChar_not_whitespace (c : ascii) :
  Spec.whitespace c = false -> Spec.whitespace (lowerChar c) = false.
Proof.
  destruct c as [[] [] [] [] [] [] [] []]; try discriminate;
    intros _; reflexivity.
Qed.

Lemma fields_clean (s : string) :
  Spec.fields (clean s) = map clean (Spec.fields s).
Proof.
  unfold clean.
  induction s as [|c t IH]; [reflexivity|].
  cbn [toLowerCase replace_nonWord Spec.fields].
  destruct (Spec.whitespace c) eqn:Hws.
  - destruct (whitespace_clean c Hws) as [-> ->].
    cbn [Spec.fields map]. now rewrite Hws, IH.
  - pose proof (fields_nonempty t) as Hne.
    destruct (Spec.fields t) as [|f fs] eqn:Hf; [congruence|].
    cbn [map toLowerCase replace_nonWord] in IH |- *.
    destruct (nonWordChar (lowerChar c)).
    + exact IH.
    + cbn [Spec.fields].
      rewrite (lowerChar_not_whitespace c Hws), IH. reflexivity.
Qed.

Lemma filter_nonEmpty_clean (l : list string) :
  (forall w, In w l -> w <> EmptyString -> keepsText w) ->
  filter Spec.nonEmpty (map clean l) = map clean (filter Spec.nonEmpty l).
Proof.
  induction l as [|w l IH]; intros Hl; [reflexivity|].
  cbn [map filter]. rewrite IH by (intros x Hx; apply Hl; now right).
  assert (Hsame : Spec.nonEmpty (clean w) = Spec.nonEmpty w).
  { unfold Spec.nonEmpty.
    destruct (String.eqb_spec w EmptyString) as [->|Hw]; [reflexivity|].
    destruct (String.eqb_spec (clean w) EmptyString) as [Hc|Hc];
      [|reflexivity].
    now destruct (Hl w (or_introl eq_refl) Hw). }
  rewrite Hsame. now destruct (Spec.nonEmpty w).
Qed.

Lemma removelast_map {A B : Type} (f : A -> B) (l : list A) :
  removelast (map f l) = map f (removelast l).
Proof.
  induction l as [|x [|y l] IH]; [reflexivity | reflexivity |].
  cbn [map removelast] in IH |- *. now rewrite IH.
Qed.

Lemma last_map {A B : Type} (f : A -> B) (l : list A) (d : A) :
  last (map f l) (f d) = f (last l d).
Proof.
  induction l as [|x [|y l] IH]; [reflexivity | reflexivity |].
  cbn [map last] in IH |- *. exact IH.
Qed.

Lemma In_removelast {A : Type} (x : A) (l : list A) :
  In x (removelast l) -> In x l.
Proof.
  induction l as [|y [|z l] IH]; [intros [] | intros [] |].
  cbn [removelast]. intros [->|H]; [now left | right; now apply IH].
Qed.

Lemma tokens_In_fields (s w : string) :
  In w (Spec.fields s) -> w <> EmptyString -> In w (Spec.tokens s).
Proof.
  unfold Spec.tokens.
  destruct (Spec.fields s) as [|f [|g gs]]; [intros [] | now intros | ].
  intros [->|Hin] Hw; [now left|]. right.
  apply in_or_app.
  destruct (exists_last (l := g :: gs) ltac:(discriminate)) as (l' & a & E).
  rewrite E in Hin |- *. rewrite removelast_last, last_last.
  apply in_app_or in Hin. destruct Hin as [Hin|[->|[]]].
  - left. apply filter_In. split; [exact Hin|].
    unfold Spec.nonEmpty. now destruct (String.eqb_spec w EmptyString).
  - right. now left.
Qed.

Lemma tokens_clean (s : string) :
  (forall w, In w (split_ws s) -> w <> EmptyString -> keepsText w) ->
  split_ws (clean s) = map clean (split_ws s).
Proof.
  intros Hwords. rewrite !split_ws_tokens in *.
  assert (Hfields : forall w, In w (Spec.fields s) -> w <> EmptyString ->
                              keepsText w).
  { intros w Hin Hw. apply Hwords; [|exact Hw].
    now apply tokens_In_fields. }
  unfold Spec.tokens. rewrite fields_clean.
  destruct (Spec.fields s) as [|f [|g gs]]; [reflexivity | reflexivity |].
  cbn [map]. change (clean g :: map clean gs) with (map clean (g :: gs)).
  rewrite removelast_map, map_app, filter_nonEmpty_clean.
  - cbn [map]. do 2 f_equal.
    now rewrite <- (last_map clean (g :: gs) EmptyString).
  - intros w Hin Hw. apply Hfields; [|exact Hw].
    right. now apply In_removelast.
Qed.

(** ** Sorting *)

Lemma ascii_compare_N (a b : ascii) :
  Ascii.compare a b = (N_of_ascii a ?= N_of_ascii b)%N.
Proof. reflexivity. Qed.

Lemma string_compare_not_Gt_trans (a b c : string) :
  String.compare a b <> Gt -> String.compare b c <> Gt ->
  String.compare a c <> Gt.
Proof.
  revert b c.
  induction a as [|x a IH]; intros [|y b] [|z c]; simpl;
    try congruence.
  rewrite !ascii_compare_N.
  destruct (N.compare_spec (N_of_ascii x) (N_of_ascii y)) as [Hxy|Hxy|Hxy];
    destruct (N.compare_spec (N_of_ascii y) (N_of_ascii z)) as [Hyz|Hyz|Hyz];
    intros H1 H2; try congruence.
  - rewrite Hxy, Hyz, N.compare_refl. now apply IH with b.
  - rewrite Hxy. apply N.compare_lt_iff in Hyz. now rewrite Hyz.
  - rewrite <- Hyz. apply N.compare_lt_iff in Hxy. now rewrite Hxy.
  - assert (Hxz : (N_of_ascii x < N_of_ascii z)%N) by lia.
    apply N.compare_lt_iff in Hxz. now rewrite Hxz.
Qed.

Lemma leb_not_Gt (a b : string) :
  String.leb a b = true <-> String.compare a b <> Gt.
Proof.
  unfold String.leb. destruct (String.compare a b); split; congruence.
Qed.

Lemma le_string_trans (a b c : string) :
  le_string a b -> le_string b c -> le_string a c.
Proof.
  unfold le_string. rewrite !leb_not_Gt.
  apply string_compare_not_Gt_trans.
Qed.

Lemma le_string_total (a b : string) : le_string a b \/ le_string b a.
Proof. apply String.leb_total. Qed.

Lemma insert_perm (x : string) (l : list string) :
  Permutation (x :: l) (insert x l).
Proof.
  induction l as [|y l IH]; simpl; [reflexivity|].
  destruct (String.leb x y); [reflexivity|].
  rewrite perm_swap. now constructor.
Qed.

Lemma sort_perm (l : list string) : Permutation l (sort l).
Proof.
  induction l as [|x l IH]; simpl; [constructor|].
  rewrite <- insert_perm. now constructor.
Qed.

Lemma insert_sorted (x : string) (l : list string) :
  StronglySorted le_string l -> StronglySorted le_string (insert x l).
Proof.
  induction 1 as [|y l Hl IH Hy]; simpl.
  - repeat constructor.
  - destruct (String.leb x y) eqn:Hxy.
    + constructor; [now constructor|].
      constructor; [exact Hxy|].
      eapply Forall_impl; [|exact Hy].
      intros z Hz. now apply le_string_trans with y.
    + constructor; [exact IH|].
      assert (Hyx : le_string y x).
      { destruct (le_string_total x y) as [H|H]; [|exact H].
        unfold le_string in H. congruence. }
      rewrite <- (insert_perm x l). now constructor.
Qed.

Lemma sort_sorted (l : list string) : StronglySorted le_string (sort l).
Proof.
  induction l as [|x l IH]; simpl; [constructor|].
  now apply insert_sorted.
Qed.

(** A list has one sorted arrangement only. *)
Lemma sorted_perm_unique (l1 l2 : list string) :
  StronglySorted le_string l1 -> StronglySorted le_string l2 ->
  Permutation l1 l2 -> l1 = l2.
Proof.
  intros H1. revert l2.
  induction H1 as [|x l1 Hl1 IH Hx]; intros l2 H2 Hp.
  - apply Permutation_nil in Hp. now subst.
  - destruct H2 as [|y l2 Hl2 Hy].
    + apply Permutation_sym, Permutation_nil in Hp. discriminate.
    + assert (Hxy : x = y).
      { assert (Hin1 : In x (y :: l2))
          by (eapply Permutation_in; [exact Hp | now left]).
        assert (Hin2 : In y (x :: l1))
          by (eapply Permutation_in;
              [apply Permutation_sym; exact Hp | now left]).
        destruct Hin1 as [->|Hin1]; [reflexivity|].
        destruct Hin2 as [->|Hin2]; [reflexivity|].
        rewrite Forall_forall in Hx, Hy.
        apply String.leb_antisym; [now apply Hx | now apply Hy]. }
      subst y. f_equal. apply IH; [exact Hl2|].
      now apply Permutation_cons_inv with x.
Qed.

(** Whatever the engine's algorithm, a sorted rearrangement of the array is
    the one computed by [sort]. *)
Lemma sort_unique (l sorted : list string) :
  Permutation l sorted -> StronglySorted le_string sorted -> sort l = sorted.
Proof.
  intros Hp Hs. apply sorted_perm_unique; [apply sort_sorted | exact Hs |].
  rewrite <- Hp. apply Permutation_sym, sort_perm.
Qed.

Lemma sort_permutation_eq (l1 l2 : list string) :
  Permutation l1 l2 -> sort l1 = sort l2.
Proof.
  intros Hp. apply sort_unique; [|apply sort_sorted].
  rewrite Hp. apply sort_perm.
Qed.

Lemma sort_mergesort (l : list string) : sort l = StringSort.sort l.
Proof.
  apply sort_unique; [apply StringSort.Permuted_sort|].
  apply Sorted_StronglySorted.
  - intros a b c. apply le_string_trans.
  - pose proof (StringSort.Sorted_sort l) as H.
    eapply Sorted_LocallySorted_iff.
    apply Sorted_LocallySorted_iff in H.
    exact H.
Qed.

Lemma normalizeQuestion_spec (q : string) :
  normalizeQuestion q = Spec.normalize q.
Proof.
  unfold normalizeQuestion, Spec.normalize, join.
  now rewrite replace_nonWord_delete, split_ws_tokens, sort_mergesort.
Qed.

(** ** One invocation of the generator *)

Section GeneratorFacts.

Variable JSON_parse : string -> option JsVal.
Variables XAI_API_KEY normalizedGrade normalizedTopic : string.
Variable world : World.

Local Abbreviation attempt' :=
  (attempt JSON_parse normalizedGrade normalizedTopic world).
Local Abbreviation afterResponse' :=
  (afterResponse JSON_parse normalizedTopic).
Local Abbreviation onApiError' :=
  (onApiError normalizedGrade normalizedTopic world).
Local Abbreviation generateProblem' :=
  (generateProblem JSON_parse XAI_API_KEY normalizedGrade normalizedTopic
                   world).
Local Abbreviation exhausted' :=
  (exhausted normalizedGrade normalizedTopic world).
Local Abbreviation prompt' := (prompt normalizedGrade normalizedTopic world).
Local Abbreviation fallbackProblem' :=
  (fallbackProblem normalizedGrade normalizedTopic).

Lemma arrIncludes_In (xs : list string) (x : string) :
  Js.arrIncludes xs x = true <-> In x xs.
Proof.
  unfold Js.arrIncludes. rewrite existsb_exists. split.
  - intros [y [Hy Heq]]. apply String.eqb_eq in Heq. now subst.
  - intros H. exists x. split; [exact H | apply String.eqb_refl].
Qed.

(** The recursion of [generateProblem] as the source writes it. *)
Lemma generateProblem_eq (retryCount maxRetries : nat)
      (questionHistory : list string) :
  generateProblem' retryCount maxRetries questionHistory
  = if (maxRetries <=? retryCount)%nat
    then exhausted' questionHistory retryCount
    else
      let call := AxiosPost XAI_API_KEY
                    (prompt' retryCount) in
      match attempt' questionHistory retryCount with
      | (Respond r, questionHistory') =>
          {| outcome := Sent r; history := questionHistory';
             events := [call] |}
      | (Retry ms, questionHistory') =>
          let rest :=
            generateProblem' (S retryCount) maxRetries questionHistory' in
          {| outcome := outcome rest; history := history rest;
             events := call :: SetTimeout ms (S retryCount) :: events rest |}
      end.
Proof.
  unfold generateProblem.
  destruct (Nat.leb_spec maxRetries retryCount) as [Hle|Hlt].
  - replace (maxRetries - retryCount) with 0 by lia. reflexivity.
  - replace (maxRetries - retryCount) with (S (maxRetries - S retryCount))
      by lia.
    reflexivity.
Qed.

Lemma completion_afterResponse (questionHistory : list string)
      (data content : JsVal) :
  completion data = Some content ->
  afterResponse' questionHistory data
  = match parseProblem JSON_parse content with
    | None => inr (Retry 1000, questionHistory)
    | Some problemData =>
        match Js.prop problemData "question" with
        | Some (JStr question) =>
            if Js.arrIncludes questionHistory (normalizeQuestion question)
            then inr (Retry 1000, questionHistory)
            else inr (Respond (noStore (withType normalizedTopic problemData)),
                      remember questionHistory (normalizeQuestion question))
        | _ => inl (TypeError "question.toLowerCase is not a function")
        end
    end.
Proof.
  unfold completion, afterResponse.
  destruct (Js.prop data "choices") as [choices|]; [|discriminate].
  destruct (Js.truthy choices); [|discriminate]. cbn [negb].
  destruct (Js.elem0 choices) as [first|]; [|discriminate].
  cbv zeta.
  destruct (Js.truthy (Js.optProp (Js.optProp first "message") "content"))
    eqn:Ht; [|discriminate].
  intros [= <-]. cbn [negb]. reflexivity.
Qed.

Lemma truthy_elem0 (v : JsVal) : Js.truthy v = true -> Js.elem0 v <> None.
Proof. destruct v as [| | | | [|c s] | [|x l] |]; simpl; congruence. Qed.

(** Each retry condition makes the invocation schedule the next one, one
    second later, with the history as it was. *)
Lemma retryCondition_attempt (questionHistory : list string)
      (retryCount : nat) :
  retryCondition JSON_parse questionHistory (axios_post world retryCount) ->
  attempt' questionHistory retryCount = (Retry 1000, questionHistory).
Proof.
  unfold attempt.
  intros H. inversion H as [data Hd Hc Heq | data content Hc Hp Heq
                           | data content pd q Hc Hp Hq Hin Heq
                           | apiError Ht Heq]; clear H.
  - unfold completion in Hc. unfold afterResponse.
    destruct (Js.prop data "choices") as [choices|]; [|congruence].
    destruct (Js.truthy choices) eqn:Hch; [|reflexivity]. cbn [negb].
    pose proof (truthy_elem0 _ Hch) as He.
    destruct (Js.elem0 choices) as [first|]; [|congruence].
    cbv zeta in Hc |- *.
    destruct (Js.truthy (Js.optProp (Js.optProp first "message") "content"));
      [discriminate | reflexivity].
  - rewrite (completion_afterResponse _ _ _ Hc), Hp. reflexivity.
  - rewrite (completion_afterResponse _ _ _ Hc), Hp, Hq.
    apply arrIncludes_In in Hin. rewrite Hin. reflexivity.
  - unfold onApiError. rewrite Ht. reflexivity.
Qed.

Lemma parseProblem_Some (content problemData : JsVal) :
  parseProblem JSON_parse content = Some problemData ->
  exists text question answer,
    content = JStr text
    /\ startsWith text "{" = true /\ endsWith text "}" = true
    /\ JSON_parse text = Some problemData
    /\ Js.prop problemData "question" = Some question
    /\ Js.prop problemData "answer" = Some answer
    /\ Js.truthy question = true /\ Js.truthy answer = true.
Proof.
  unfold parseProblem.
  destruct content as [| | | | text | |]; try discriminate.
  destruct (startsWith text "{") eqn:Hs; [|discriminate].
  destruct (endsWith text "}") eqn:He; [|discriminate].
  cbn [negb orb].
  destruct (JSON_parse text) as [pd|] eqn:Hp; [|discriminate].
  destruct (Js.prop pd "question") as [q|] eqn:Hq; [|discriminate].
  destruct (Js.prop pd "answer") as [a|] eqn:Ha; [|discriminate].
  destruct (Js.truthy q) eqn:Htq; [|discriminate].
  destruct (Js.truthy a) eqn:Hta; [|discriminate].
  cbn [negb orb]. intros [= <-].
  exists text, q, a. repeat split; assumption.
Qed.

Lemma parseProblem_JStr (text : string) (problemData question answer : JsVal) :
  startsWith text "{" = true -> endsWith text "}" = true ->
  JSON_parse text = Some problemData ->
  Js.prop problemData "question" = Some question ->
  Js.prop problemData "answer" = Some answer ->
  parseProblem JSON_parse (JStr text)
  = if Js.truthy question && Js.truthy answer then Some problemData
    else None.
Proof.
  intros Hs He Hp Hq Ha. unfold parseProblem.
  rewrite Hs, He, Hp, Hq, Ha. cbn [negb orb].
  destruct (Js.truthy question), (Js.truthy answer); reflexivity.
Qed.

Lemma own_assign_other (k k' : string) (v : JsVal)
      (o : list (string * JsVal)) :
  k' <> k -> Js.own k' (Js.assign k v o) = Js.own k' o.
Proof.
  intros Hne. induction o as [|[k0 v0] o IH]; simpl.
  - apply String.eqb_neq in Hne. rewrite String.eqb_sym in Hne.
    now rewrite Hne.
  - destruct (String.eqb_spec k0 k) as [->|Hk]; simpl.
    + destruct (String.eqb_spec k k') as [E|_]; [congruence | reflexivity].
    + destruct (k0 =? k'); [reflexivity | exact IH].
Qed.

Lemma own_assign_same (k : string) (v : JsVal) (o : list (string * JsVal)) :
  Js.own k (Js.assign k v o) = Some v.
Proof.
  induction o as [|[k0 v0] o IH]; simpl.
  - now rewrite String.eqb_refl.
  - destruct (String.eqb_spec k0 k) as [->|Hk]; simpl.
    + now rewrite String.eqb_refl.
    + apply String.eqb_neq in Hk. now rewrite Hk.
Qed.

Lemma prop_Some_JObj (v x : JsVal) (k : string) :
  Js.prop v k = Some x -> Js.truthy x = true ->
  exists props, v = JObj props /\ Js.own k props = Some x.
Proof.
  destruct v as [| | | | | |props]; simpl; try discriminate;
    try (intros [= <-]; discriminate).
  destruct (Js.own k props) as [y|] eqn:Hy; intros [= <-]; [|discriminate].
  intros _. now exists props.
Qed.

(** The fields of the object sent on the success path. *)
Lemma withType_fields (problemData question answer : JsVal) :
  Js.prop problemData "question" = Some question ->
  Js.truthy question = true ->
  Js.prop problemData "answer" = Some answer ->
  Js.prop (withType normalizedTopic problemData) "question" = Some question
  /\ Js.prop (withType normalizedTopic problemData) "answer" = Some answer
  /\ Js.prop (withType normalizedTopic problemData) "type"
     = Some (JStr normalizedTopic).
Proof.
  intros Hq Htq Ha.
  destruct (prop_Some_JObj _ _ _ Hq Htq) as [props [-> Hown]].
  simpl in Hq, Ha |- *.
  rewrite !own_assign_other by discriminate.
  rewrite own_assign_same. auto.
Qed.

(** One invocation either leaves the history as it was, and then it
    schedules a retry or sends a reply without headers, or it sends the
    parsed problem with the no-store directive and records the normal form
    of its question, which was not in the history. *)
Lemma attempt_history (questionHistory : list string) (retryCount : nat) :
  let (step, questionHistory') := attempt' questionHistory retryCount in
  (questionHistory' = questionHistory
   /\ match step with
      | Retry ms => ms = 1000
      | Respond r => headers r = []
      end)
  \/ exists problemData question answer,
      step = Respond (noStore (withType normalizedTopic problemData))
      /\ Js.prop problemData "question" = Some (JStr question)
      /\ question <> EmptyString
      /\ Js.prop problemData "answer" = Some answer
      /\ Js.truthy answer = true
      /\ ~ In (normalizeQuestion question) questionHistory
      /\ questionHistory'
         = remember questionHistory (normalizeQuestion question).
Proof.
  assert (Herr : forall e,
             let (step, h) := onApiError' questionHistory retryCount e in
             h = questionHistory
             /\ match step with
                | Retry ms => ms = 1000
                | Respond r => headers r = []
                end).
  { intros e. unfold onApiError.
    destruct (transient e); [now split|].
    destruct (isModelError e); [now split|].
    destruct (isResourceNotFound e); now split. }
  unfold attempt.
  destruct (axios_post world retryCount) as [data|e].
  2:{ specialize (Herr e).
      destruct (onApiError' questionHistory retryCount e). now left. }
  destruct (completion data) as [content|] eqn:Hc.
  - rewrite (completion_afterResponse _ _ _ Hc).
    destruct (parseProblem JSON_parse content) as [pd|] eqn:Hp;
      [|left; now split].
    destruct (parseProblem_Some _ _ Hp)
      as (text & q & a & -> & _ & _ & _ & Hq & Ha & Htq & Hta).
    rewrite Hq.
    destruct q as [| | | | question| |];
      try (specialize (Herr (TypeError "question.toLowerCase is not a function"));
           destruct (onApiError' questionHistory retryCount _); now left).
    destruct (Js.arrIncludes questionHistory (normalizeQuestion question))
      eqn:Hdup; [left; now split|].
    right. exists pd, question, a. repeat split; try reflexivity.
    + exact Hq.
    + intros ->. discriminate.
    + exact Ha.
    + exact Hta.
    + rewrite <- arrIncludes_In. congruence.
  - unfold completion in Hc. unfold afterResponse.
    destruct (Js.prop data "choices") as [choices|].
    2:{ specialize (Herr (TypeError "Cannot read properties of undefined (reading 'choices')")).
        destruct (onApiError' questionHistory retryCount _). now left. }
    destruct (Js.truthy choices) eqn:Hch; [|left; now split]. cbn [negb].
    pose proof (truthy_elem0 _ Hch) as He.
    destruct (Js.elem0 choices) as [first|]; [|congruence].
    cbv zeta in Hc |- *.
    destruct (Js.truthy (Js.optProp (Js.optProp first "message") "content"));
      [discriminate | left; now split].
Qed.

(** When every invocation from [retryCount] on schedules a retry, the loop
    makes one provider call per remaining invocation, waits one second
    between them and ends with the fallback problem. *)
Lemma retryLoop_retries (budget retryCount : nat)
      (questionHistory : list string) :
  (forall i, retryCount <= i < retryCount + budget ->
             attempt' questionHistory i = (Retry 1000, questionHistory)) ->
  let run := retryLoop JSON_parse XAI_API_KEY normalizedGrade normalizedTopic
                       world budget retryCount questionHistory in
  outcome run
  = Sent (json (fallbackProblem'
                  (Math_random world (retryCount + budget) 0)))
  /\ history run = questionHistory
  /\ attempts run = budget
  /\ delays (events run) = repeat 1000 budget.
Proof.
  revert retryCount.
  induction budget as [|budget IH]; intros retryCount Hall; cbn zeta.
  - simpl. rewrite Nat.add_0_r. repeat split.
  - cbn [retryLoop]. rewrite Hall by lia.
    destruct (IH (S retryCount)) as (Ho & Hh & Hc & Hd).
    { intros i Hi. apply Hall. lia. }
    cbv zeta in Ho, Hh, Hc, Hd.
    unfold attempts in *. cbn [outcome history events calls delays repeat].
    rewrite Ho, Hh, Hc, Hd.
    replace (retryCount + S budget) with (S retryCount + budget) by lia.
    repeat split.
Qed.

(** When the first [j] invocations from [retryCount] on schedule a retry
    and the next one replies, the loop ends with that reply. *)
Lemma retryLoop_responds (j budget retryCount : nat)
      (questionHistory questionHistory' : list string) (r : Response) :
  (forall i, retryCount <= i < retryCount + j ->
             attempt' questionHistory i = (Retry 1000, questionHistory)) ->
  attempt' questionHistory (retryCount + j) = (Respond r, questionHistory') ->
  j < budget ->
  let run := retryLoop JSON_parse XAI_API_KEY normalizedGrade normalizedTopic
                       world budget retryCount questionHistory in
  outcome run = Sent r
  /\ history run = questionHistory'
  /\ attempts run = S j
  /\ delays (events run) = repeat 1000 j.
Proof.
  revert budget retryCount.
  induction j as [|j IH]; intros budget retryCount Hall Hlast Hlt; cbn zeta.
  - destruct budget as [|budget]; [lia|].
    rewrite Nat.add_0_r in Hlast.
    cbn [retryLoop]. rewrite Hlast. repeat split.
  - destruct budget as [|budget]; [lia|].
    cbn [retryLoop]. rewrite Hall by lia.
    destruct (IH budget (S retryCount)) as (Ho & Hh & Hc & Hd).
    { intros i Hi. apply Hall. lia. }
    { replace (S retryCount + j) with (retryCount + S j) by lia.
      exact Hlast. }
    { lia. }
    cbv zeta in Ho, Hh, Hc, Hd.
    unfold attempts in *. cbn [outcome history events calls delays repeat].
    rewrite Ho, Hh, Hc, Hd. repeat split.
Qed.

(** The history after the whole loop. *)
Lemma retryLoop_history (budget retryCount : nat)
      (questionHistory : list string) :
  let run := retryLoop JSON_parse XAI_API_KEY normalizedGrade normalizedTopic
                       world budget retryCount questionHistory in
  (history run = questionHistory
   /\ exists r, outcome run = Sent r /\ headers r = [])
  \/ exists problemData question answer,
      outcome run = Sent (noStore (withType normalizedTopic problemData))
      /\ Js.prop problemData "question" = Some (JStr question)
      /\ question <> EmptyString
      /\ Js.prop problemData "answer" = Some answer
      /\ Js.truthy answer = true
      /\ ~ In (normalizeQuestion question) questionHistory
      /\ history run = remember questionHistory (normalizeQuestion question).
Proof.
  revert retryCount.
  induction budget as [|budget IH]; intros retryCount; cbn zeta.
  - left. split; [reflexivity|]. eexists. split; reflexivity.
  - cbn [retryLoop].
    pose proof (attempt_history questionHistory retryCount) as Ha.
    destruct (attempt' questionHistory retryCount) as [[r|ms] h'].
    + destruct Ha as [[-> Hr] | (pd & q & a & Hs & Hrest)].
      * left. split; [reflexivity|]. now exists r.
      * right. exists pd, q, a. injection Hs as ->.
        cbn [outcome history]. split; [reflexivity | exact Hrest].
    + destruct Ha as [[-> _] | (pd & q & a & Hs & _)]; [|discriminate].
      apply IH.
Qed.

End GeneratorFacts.

(** ** Random choice and the fallback problem *)

(** *** Rounding *)

Lemma roundToDouble_exact (p : N) :
  (p < 2 ^ 53)%N -> roundToDouble p = p.
Proof.
  intros Hp. unfold roundToDouble.
  assert (H : (N.size p <= 53)%N).
  { destruct (N.eq_dec p 0) as [->|Hnz]; [cbn; lia|].
    rewrite N.size_log2 by exact Hnz.
    apply N.le_succ_l, N.log2_lt_pow2; lia. }
  replace (N.size p - 53)%N with 0%N by lia. reflexivity.
Qed.

(** A product of more than 53 bits: [q] keeps the high 53 bits, [r] is
    what is cut, and the result is [q] or its successor, on the side of
    the half. *)
Lemma roundToDouble_spec (p : N) :
  (2 ^ 53 <= p)%N ->
  exists e q r : N,
    (0 < e /\ p = q * 2 ^ e + r /\ r < 2 ^ e /\ 2 ^ (52 + e) <= p
     /\ ((roundToDouble p = q * 2 ^ e /\ 2 * r <= 2 ^ e)
         \/ (roundToDouble p = (q + 1) * 2 ^ e /\ 2 ^ e <= 2 * r)))%N.
Proof.
  intros Hp.
  assert (Hnz : p <> 0%N) by lia.
  assert (Hsz : (53 < N.size p)%N).
  { rewrite N.size_log2 by exact Hnz.
    apply N.lt_succ_r, N.log2_le_pow2; lia. }
  set (e := (N.size p - 53)%N).
  assert (He : (0 < e)%N) by (unfold e; lia).
  exists e, (p / 2 ^ e)%N, (p mod 2 ^ e)%N.
  assert (Hpow : (2 ^ e <> 0)%N) by (apply N.pow_nonzero; lia).
  pose proof (N.div_mod p (2 ^ e)%N Hpow) as Hdm.
  pose proof (N.mod_lt p (2 ^ e)%N Hpow) as Hm.
  assert (Hlow : (2 ^ (52 + e) <= p)%N).
  { replace (52 + e)%N with (N.log2 p).
    - apply N.log2_spec. lia.
    - unfold e. rewrite N.size_log2 in Hsz |- * by exact Hnz. lia. }
  split; [exact He|].
  split; [rewrite (N.mul_comm (p / 2 ^ e)); exact Hdm|].
  split; [exact Hm|]. split; [exact Hlow|].
  unfold roundToDouble. fold e.
  destruct (N.eqb_spec e 0) as [E|_]; [lia|].
  rewrite N.shiftr_div_pow2, !N.shiftl_mul_pow2.
  assert (Hrem : (p - p / 2 ^ e * 2 ^ e = p mod 2 ^ e)%N).
  { rewrite (N.mul_comm (p / 2 ^ e)).
    rewrite Hdm at 1. rewrite N.add_comm. apply N.add_sub. }
  rewrite Hrem, N.mul_1_l.
  assert (Hhalf : (2 ^ e = 2 * 2 ^ (e - 1))%N).
  { rewrite <- N.pow_succ_r'. f_equal. lia. }
  destruct ((2 ^ (e - 1) <? p mod 2 ^ e)%N
            || ((p mod 2 ^ e =? 2 ^ (e - 1))%N && N.odd (p / 2 ^ e)))
    eqn:Hup.
  - right. split; [reflexivity|].
    apply orb_true_iff in Hup. destruct Hup as [H|H].
    + apply N.ltb_lt in H. lia.
    + apply andb_true_iff in H. destruct H as [H _].
      apply N.eqb_eq in H. lia.
  - left. split; [reflexivity|].
    apply orb_false_iff in Hup. destruct Hup as [H _].
    apply N.ltb_ge in H. lia.
Qed.

(** The product of a double below 1 with [n] is not rounded up to [n]. *)
Lemma roundToDouble_below (m n s : N) :
  (m < 2 ^ 53 -> m < 2 ^ s -> 0 < n ->
   roundToDouble (m * n) < n * 2 ^ s)%N.
Proof.
  intros Hm Hs Hn.
  destruct (N.lt_ge_cases (m * n) (2 ^ 53)) as [Hsmall|Hbig].
  - rewrite roundToDouble_exact by exact Hsmall. nia.
  - destruct (roundToDouble_spec (m * n) Hbig)
      as (e & q & r & He & Hp & Hr & Hlow & [[-> Hhalf]| [-> Hhalf]]).
    + nia.
    + rewrite N.pow_add_r in Hlow.
      set (E := (2 ^ e)%N) in *. set (S := (2 ^ s)%N) in *.
      change (2 ^ 52)%N with 4503599627370496%N in Hlow.
      change (2 ^ 53)%N with 9007199254740992%N in Hm.
      nia.
Qed.

(** The relative error of the rounding is at most [2 ^ -53]. *)
Lemma roundToDouble_near (p : N) :
  ((2 ^ 53 - 1) * p <= 2 ^ 53 * roundToDouble p <= (2 ^ 53 + 1) * p)%N.
Proof.
  destruct (N.lt_ge_cases p (2 ^ 53)) as [Hsmall|Hbig].
  - rewrite roundToDouble_exact by exact Hsmall.
    change (2 ^ 53)%N with 9007199254740992%N. lia.
  - destruct (roundToDouble_spec p Hbig)
      as (e & q & r & He & Hp & Hr & Hlow & [[-> Hhalf]| [-> Hhalf]]);
      rewrite N.pow_add_r in Hlow;
      set (E := (2 ^ e)%N) in *;
      change (2 ^ 52)%N with 4503599627370496%N in Hlow;
      change (2 ^ 53)%N with 9007199254740992%N;
      nia.
Qed.

Lemma pick_bound (d : Draw) (n : nat) :
  inUnitInterval d -> 0 < n -> pick d n < n.
Proof.
  intros (Hm & Hs & _) Hn. unfold pick.
  rewrite N.shiftr_div_pow2.
  assert (H : (roundToDouble (significand d * N.of_nat n) / 2 ^ scale d
               < N.of_nat n)%N).
  { apply N.Div0.div_lt_upper_bound.
    rewrite (N.mul_comm (2 ^ scale d)).
    apply roundToDouble_below; [exact Hm | exact Hs | lia]. }
  lia.
Qed.

(** The draws that select an index [i] of [n] lie between [i / n] and
    [(i + 1) / n], up to the relative error of the rounding. *)
Lemma pick_interval (d : Draw) (n : nat) :
  let p := (significand d * N.of_nat n)%N in
  let i := N.of_nat (pick d n) in
  (2 ^ 53 * (i * 2 ^ scale d) <= (2 ^ 53 + 1) * p
   /\ (2 ^ 53 - 1) * p < 2 ^ 53 * ((i + 1) * 2 ^ scale d))%N.
Proof.
  cbv zeta. unfold pick. rewrite N2Nat.id, N.shiftr_div_pow2.
  set (p := (significand d * N.of_nat n)%N).
  set (S := (2 ^ scale d)%N).
  assert (HS : (S <> 0)%N) by (apply N.pow_nonzero; lia).
  pose proof (roundToDouble_near p) as [Hlo Hhi].
  pose proof (N.div_mod (roundToDouble p) S HS) as Hdm.
  pose proof (N.mod_lt (roundToDouble p) S HS) as Hmod.
  change (2 ^ 53)%N with 9007199254740992%N in *.
  set (r := (roundToDouble p mod S)%N) in *.
  set (q := (roundToDouble p / S)%N) in *.
  clearbody r q.
  nia.
Qed.

(** Every index of an array, which has fewer than [2 ^ 32] elements, is
    selected by a draw. *)
Lemma pick_reaches (i n : nat) :
  i < n -> (N.of_nat n < 2 ^ 32)%N ->
  inUnitInterval (drawFor i n) /\ pick (drawFor i n) n = i.
Proof.
  intros Hi Hn.
  set (I := N.of_nat i). set (M := N.of_nat n) in *.
  assert (HI : (I < M)%N) by (unfold I, M; lia).
  assert (HM : (M <> 0)%N) by lia.
  set (m := ((I * 2 ^ 40 + M - 1) / M)%N).
  pose proof (N.div_mod (I * 2 ^ 40 + M - 1) M HM) as Hdm.
  pose proof (N.mod_lt (I * 2 ^ 40 + M - 1) M HM) as Hmod.
  fold m in Hdm.
  change (2 ^ 32)%N with 4294967296%N in Hn.
  assert (Hfacts : (I * 2 ^ 40 <= m * M /\ m * M < I * 2 ^ 40 + M
                    /\ m < 2 ^ 40)%N).
  { change (2 ^ 40)%N with 1099511627776%N in *.
    set (r := ((I * 1099511627776 + M - 1) mod M)%N) in *.
    clearbody r m. nia. }
  destruct Hfacts as (Hlo & Hhi & Hm).
  split.
  - unfold inUnitInterval, drawFor. cbn [significand scale]. fold I M m.
    change (2 ^ 40)%N with 1099511627776%N in *.
    change (2 ^ 53)%N with 9007199254740992%N. lia.
  - unfold pick, drawFor. cbn [significand scale]. fold I M m.
    rewrite N.shiftr_div_pow2.
    assert (Hround : (I * 2 ^ 40 <= roundToDouble (m * M)
                      < (I + 1) * 2 ^ 40)%N).
    { destruct (N.lt_ge_cases (m * M) (2 ^ 53)) as [Hsmall|Hbig].
      - rewrite roundToDouble_exact by exact Hsmall.
        change (2 ^ 40)%N with 1099511627776%N in *. lia.
      - destruct (roundToDouble_spec (m * M) Hbig)
          as (e & q & r & He & Hp & Hr & Hlow & Hcases).
        assert (Hbound : (m * M < 2 ^ 72)%N).
        { change (2 ^ 72)%N with (2 ^ 40 * 2 ^ 32)%N.
          change (2 ^ 32)%N with 4294967296%N. nia. }
        assert (He19 : (e <= 19)%N).
        { assert (H : (2 ^ (52 + e) < 2 ^ 72)%N) by lia.
          apply N.pow_lt_mono_r_iff in H; lia. }
        assert (Hsplit : (2 ^ 40 = 2 ^ (40 - e) * 2 ^ e)%N).
        { rewrite <- N.pow_add_r. f_equal. lia. }
        assert (HE : (2 ^ e <= 2 ^ 19)%N)
          by (apply N.pow_le_mono_r; lia).
        assert (Hq : (I * 2 ^ 40 <= q * 2 ^ e)%N).
        { rewrite Hsplit. rewrite Hsplit in Hlo.
          set (E := (2 ^ e)%N) in *. set (F := (2 ^ (40 - e))%N) in *.
          assert (HE0 : (0 < E)%N)
            by (apply N.neq_0_lt_0, N.pow_nonzero; lia).
          clearbody E F.
          assert (H1 : (I * F * E < (q + 1) * E)%N) by nia.
          apply N.mul_lt_mono_pos_r in H1; [|exact HE0]. nia. }
        change (2 ^ 19)%N with 524288%N in HE.
        set (E := (2 ^ e)%N) in *.
        change (2 ^ 40)%N with 1099511627776%N in *.
        destruct Hcases as [[-> _] | [-> _]]; clearbody E; nia. }
    change (2 ^ 40)%N with 1099511627776%N in *.
    assert (E : (roundToDouble (m * M) / 1099511627776 = I)%N).
    { symmetry.
      apply N.div_unique
        with (r := (roundToDouble (m * M) - I * 1099511627776)%N); lia. }
    rewrite E. unfold I. lia.
Qed.

(** *** Reads of the bank and of the curriculum *)

Lemma member_own {A : Type} (k : string) (o : list (string * A)) (a : A) :
  Js.own k o = Some a -> Js.member k o = Js.Own a.
Proof. intros H. unfold Js.member. now rewrite H. Qed.

Lemma member_Own {A : Type} (k : string) (o : list (string * A)) (a : A) :
  Js.member k o = Js.Own a -> Js.own k o = Some a.
Proof.
  unfold Js.member. destruct (Js.own k o) as [a'|]; [now intros [= ->]|].
  destruct (Js.own k Js.Object_prototype); discriminate.
Qed.

Lemma member_plain {A : Type} (k : string) (o : list (string * A)) :
  Js.inherited k = false ->
  Js.member k o = match Js.own k o with
                  | Some a => Js.Own a
                  | None => Js.Missing
                  end.
Proof.
  unfold Js.member, Js.inherited. intros H.
  destruct (Js.own k o); [reflexivity|].
  destruct (Js.own k Js.Object_prototype); [discriminate | reflexivity].
Qed.

Lemma member_Inherited {A : Type} (k : string) (o : list (string * A))
      (b : Js.Builtin) :
  Js.member k o = Js.Inherited b ->
  Js.own k o = None /\ Js.inherited k = true.
Proof.
  unfold Js.member, Js.inherited. destruct (Js.own k o); [discriminate|].
  destruct (Js.own k Js.Object_prototype); [now split | discriminate].
Qed.

Lemma fallback_bank (g t : string) (byTopic : list (string * list JsVal))
      (problems : list JsVal) :
  Js.member g fallbackProblems = Js.Own byTopic ->
  Js.member t byTopic = Js.Own problems ->
  fallback g t = problems.
Proof. intros Hg Ht. unfold fallback. now rewrite Hg, Ht. Qed.

Lemma fallback_missing (g t : string) :
  Js.member g fallbackProblems = Js.Missing
  \/ (exists byTopic,
         Js.member g fallbackProblems = Js.Own byTopic
         /\ Js.member t byTopic = Js.Missing) ->
  fallback g t = [placeholder g t].
Proof.
  unfold fallback. intros [Hg | (byTopic & Hg & Ht)].
  - now rewrite Hg.
  - now rewrite Hg, Ht.
Qed.

Lemma fallback_inherited (g t : string)
      (byTopic : list (string * list JsVal)) (b : Js.Builtin) :
  Js.member g fallbackProblems = Js.Own byTopic ->
  Js.member t byTopic = Js.Inherited b ->
  fallback g t = [].
Proof. intros Hg Ht. unfold fallback. now rewrite Hg, Ht. Qed.

(** The lists of the bank are not empty. *)
Lemma bank_nonempty (g t : string) (byTopic : list (string * list JsVal))
      (problems : list JsVal) :
  Js.own g fallbackProblems = Some byTopic ->
  Js.own t byTopic = Some problems ->
  problems <> [].
Proof.
  unfold fallbackProblems. cbn [Js.own].
  destruct ("10" =? g); [|discriminate]. intros [= <-]. cbn [Js.own].
  repeat (match goal with
          | |- context [if ?b then _ else _] => destruct b
          end; cbn [Js.own]; try discriminate);
    intros [= <-]; discriminate.
Qed.

(** With a grade and a topic that [Object.prototype] does not name, the
    fallback is a list of the bank or the placeholder. *)
Lemma fallback_plain (g t : string) :
  Js.inherited g = false -> Js.inherited t = false ->
  fallback g t
  = match Js.own g fallbackProblems with
    | Some byTopic =>
        match Js.own t byTopic with
        | Some problems => problems
        | None => [placeholder g t]
        end
    | None => [placeholder g t]
    end.
Proof.
  intros Hg Ht. unfold fallback. rewrite (member_plain g _ Hg).
  destruct (Js.own g fallbackProblems) as [byTopic|]; [|reflexivity].
  rewrite (member_plain t _ Ht).
  now destruct (Js.own t byTopic).
Qed.

Lemma fallback_nonempty (g t : string) :
  Js.inherited g = false -> Js.inherited t = false -> fallback g t <> [].
Proof.
  intros Hg Ht. rewrite (fallback_plain g t Hg Ht).
  destruct (Js.own g fallbackProblems) as [byTopic|] eqn:Eg;
    [|discriminate].
  destruct (Js.own t byTopic) as [problems|] eqn:Et; [|discriminate].
  exact (bank_nonempty g t byTopic problems Eg Et).
Qed.

Lemma fallbackProblem_In (g t : string) (d : Draw) :
  inUnitInterval d -> fallback g t <> [] ->
  In (fallbackProblem g t d) (fallback g t).
Proof.
  intros Hd Hne. unfold fallbackProblem. apply nth_In.
  apply pick_bound; [exact Hd|].
  destruct (fallback g t); [congruence | simpl; lia].
Qed.

Lemma prefix_append (p s : string) : String.prefix p (p ++ s) = true.
Proof.
  induction p as [|c p IH]; simpl.
  - now destruct s.
  - destruct (ascii_dec c c); [exact IH | congruence].
Qed.

Lemma includes_here (p s : string) : includes (p ++ s) p = true.
Proof.
  destruct p as [|c p]; [now destruct s|].
  pose proof (prefix_append (String c p) s) as H.
  cbn [append] in H |- *. cbn [includes]. now rewrite H.
Qed.

Lemma includes_later (a s p : string) :
  includes s p = true -> includes (a ++ s) p = true.
Proof.
  intros H. induction a as [|c a IH]; [exact H|].
  cbn [append includes]. rewrite IH. apply orb_true_r.
Qed.

Lemma placeholder_names (g t : string) :
  exists q,
    Js.prop (placeholder g t) "question" = Some (JStr q)
    /\ includes q g = true /\ includes q t = true.
Proof.
  eexists. split; [reflexivity|]. split.
  - apply includes_later, includes_here.
  - do 3 apply includes_later. apply includes_here.
Qed.

(** ** The handler *)

Section HandlerFacts.

Variable JSON_parse : string -> option JsVal.
Variable decodeURIComponent : string -> option string.
Variable curriculumTopics : list (string * list string).

Local Abbreviation handler' :=
  (handler JSON_parse decodeURIComponent curriculumTopics).

(** A request that passes the validation, with an API key configured,
    starts the generator at [retryCount = 0] with the limit of 7. *)
Lemma handler_valid (key : string) (query : Query) (world : World)
      (questionHistory : list string) (g t : string) :
  validRequest decodeURIComponent curriculumTopics query g t ->
  key <> EmptyString ->
  handler' (Some key) query world questionHistory
  = generateProblem JSON_parse key g t world 0 7 questionHistory.
Proof.
  intros (Ht & Hg & Hgne & Htne & topics & Hown & Hin) Hkey.
  unfold handler. rewrite Ht, Hg, (member_own _ _ _ Hown).
  apply String.eqb_neq in Hgne, Htne. rewrite Hgne, Htne. cbn [orb].
  apply arrIncludes_In in Hin. rewrite Hin. cbn [negb].
  destruct key; [congruence | reflexivity].
Qed.

(** Without a key the handler answers 500 before it builds a prompt. *)
Lemma handler_no_key (env : option string) (query : Query) (world : World)
      (questionHistory : list string) (g t : string) :
  validRequest decodeURIComponent curriculumTopics query g t ->
  env = None \/ env = Some EmptyString ->
  handler' env query world questionHistory
  = reply (jsonWithStatus 500
             (errorBody "Server configuration error: Missing API key"))
          questionHistory.
Proof.
  intros (Ht & Hg & Hgne & Htne & topics & Hown & Hin) Henv.
  unfold handler. rewrite Ht, Hg, (member_own _ _ _ Hown).
  apply String.eqb_neq in Hgne, Htne. rewrite Hgne, Htne. cbn [orb].
  apply arrIncludes_In in Hin. rewrite Hin. cbn [negb].
  destruct Henv as [-> | ->]; reflexivity.
Qed.

(** Every run of the handler either leaves the history as it was and
    sends no generated reply, or sends the parsed problem with the
    no-store directive and records the normal form of its question. *)
Lemma handler_history (env : option string) (query : Query) (world : World)
      (questionHistory : list string) :
  let run := handler' env query world questionHistory in
  (history run = questionHistory
   /\ generatedQuestion run = None
   /\ forall r, outcome run = Sent r -> headers r = [])
  \/ exists t problemData question answer,
      outcome run = Sent (noStore (withType t problemData))
      /\ Js.prop problemData "question" = Some (JStr question)
      /\ question <> EmptyString
      /\ Js.prop problemData "answer" = Some answer
      /\ Js.truthy answer = true
      /\ ~ In (normalizeQuestion question) questionHistory
      /\ generatedQuestion run = Some question
      /\ history run = remember questionHistory (normalizeQuestion question).
Proof.
  cbv zeta. unfold handler.
  destruct (normalizeTopic decodeURIComponent (topic query)) as [t|].
  2:{ left. repeat split. intros r. discriminate. }
  destruct ((normalizeGrade (grade query) =? EmptyString) || (t =? EmptyString)).
  { left. repeat split. intros r [= <-]. reflexivity. }
  destruct (Js.member (normalizeGrade (grade query)) curriculumTopics)
    as [topics|b|].
  2:{ left. repeat split. intros r. discriminate. }
  2:{ left. repeat split. intros r [= <-]. reflexivity. }
  destruct (negb (Js.arrIncludes (map toLowerCase topics) t)).
  { left. repeat split. intros r [= <-]. reflexivity. }
  destruct env as [[|c key]|];
    try (left; repeat split; intros r [= <-]; reflexivity).
  unfold generateProblem, maxRetries.
  destruct (retryLoop_history JSON_parse (String c key)
              (normalizeGrade (grade query)) t world (7 - 0) 0 questionHistory)
    as [[Hh (r & Ho & Hr)] | (pd & q & a & Ho & Hq & Hne & Ha & Hta & Hnin & Hh)].
  - left. split; [exact Hh|]. split.
    + unfold generatedQuestion. rewrite Ho, Hr. reflexivity.
    + intros r'. rewrite Ho. intros [= <-]. exact Hr.
  - right. exists t, pd, q, a. repeat split; try assumption.
    unfold generatedQuestion. rewrite Ho.
    destruct (withType_fields t pd (JStr q) a Hq) as (Hbq & _);
      [destruct q; [congruence | reflexivity] | exact Ha |].
    cbn [noStore headers body]. rewrite Hbq. reflexivity.
Qed.

End HandlerFacts.

(** ** The history *)

Lemma remember_length (h : list string) (q : string) :
  List.length h <= 20 -> List.length (remember h q) <= 20.
Proof.
  intros Hh. unfold remember. cbv zeta.
  destruct (Nat.ltb_spec 20 (List.length (h ++ [q]))) as [Hlt|Hle];
    [|exact Hle].
  rewrite length_app in Hlt. simpl in Hlt.
  destruct h as [|x h]; simpl in *; [lia|].
  rewrite length_app. simpl. lia.
Qed.

Lemma remember_In (h : list string) (q e : string) :
  In e (remember h q) -> In e h \/ e = q.
Proof.
  unfold remember. cbv zeta. intros Hin.
  assert (Hin' : In e (h ++ [q])).
  { destruct (20 <? List.length (h ++ [q]))%nat; [|exact Hin].
    destruct (h ++ [q])%list; [exact Hin | now right]. }
  apply in_app_or in Hin'. destruct Hin' as [H|[H|[]]]; auto.
Qed.

Lemma remember_lastn (h : list string) (q : string) :
  List.length h <= 20 -> remember h q = lastn 20 (h ++ [q]).
Proof.
  intros Hh. unfold remember, lastn. cbv zeta.
  assert (Hlen : List.length (h ++ [q]) = S (List.length h))
    by (rewrite length_app; simpl; lia).
  rewrite Hlen.
  destruct (Nat.ltb_spec 20 (S (List.length h))) as [Hlt|Hle].
  - replace (S (List.length h) - 20) with 1 by lia.
    now destruct (h ++ [q])%list.
  - replace (S (List.length h) - 20) with 0 by lia. reflexivity.
Qed.

Lemma remember_full (h : list string) (q : string) :
  List.length h = 20 -> remember h q = (tl h ++ [q])%list.
Proof.
  intros Hh. unfold remember. cbv zeta.
  rewrite length_app, Hh. simpl.
  destruct h; [discriminate | reflexivity].
Qed.

Lemma lastn_app_lastn {A : Type} (n : nat) (l r : list A) :
  lastn n (lastn n l ++ r) = lastn n (l ++ r).
Proof.
  unfold lastn.
  destruct (Nat.le_gt_cases (List.length l) n) as [Hle|Hgt].
  - replace (List.length l - n) with 0 by lia. reflexivity.
  - rewrite !length_app, length_skipn.
    replace (List.length l - (List.length l - n) + List.length r - n)
      with (List.length r) by lia.
    replace (List.length l + List.length r - n)
      with (List.length r + (List.length l - n)) by lia.
    rewrite <- skipn_skipn. f_equal.
    rewrite skipn_app.
    replace (List.length l - n - List.length l) with 0 by lia.
    reflexivity.
Qed.

Lemma lastn_app_long {A : Type} (n : nat) (l r : list A) :
  n <= List.length r -> lastn n (l ++ r) = lastn n r.
Proof.
  intros Hn. unfold lastn. rewrite length_app, skipn_app.
  replace (List.length l + List.length r - n - List.length l)
    with (List.length r - n) by lia.
  rewrite skipn_all2 by lia. reflexivity.
Qed.

Lemma lastn_map {A B : Type} (f : A -> B) (n : nat) (l : list A) :
  lastn n (map f l) = map f (lastn n l).
Proof. unfold lastn. now rewrite length_map, skipn_map. Qed.

Section ServerFacts.

Variable JSON_parse : string -> option JsVal.
Variable decodeURIComponent : string -> option string.
Variable curriculumTopics : list (string * list string).
Variable env_XAI_API_KEY : option string.

Local Abbreviation handler' :=
  (handler JSON_parse decodeURIComponent curriculumTopics env_XAI_API_KEY).
Local Abbreviation serve' :=
  (serve JSON_parse decodeURIComponent curriculumTopics env_XAI_API_KEY).

Lemma handler_generated (query : Query) (world : World)
      (h : list string) (q : string) :
  generatedQuestion (handler' query world h) = Some q ->
  history (handler' query world h) = remember h (normalizeQuestion q).
Proof.
  intros Hg.
  destruct (handler_history JSON_parse decodeURIComponent curriculumTopics
              env_XAI_API_KEY query world h)
    as [(_ & Hn & _)
       | (t & pd & q' & a & _ & _ & _ & _ & _ & _ & Hq' & Hh)].
  - congruence.
  - rewrite Hq' in Hg. injection Hg as <-. exact Hh.
Qed.

Lemma handler_length (query : Query) (world : World) (h : list string) :
  List.length h <= 20 ->
  List.length (history (handler' query world h)) <= 20.
Proof.
  intros Hh.
  destruct (handler_history JSON_parse decodeURIComponent curriculumTopics
              env_XAI_API_KEY query world h)
    as [[-> _] | (t & pd & q' & a & _ & _ & _ & _ & _ & _ & _ & ->)].
  - exact Hh.
  - now apply remember_length.
Qed.

Lemma reachable_invariant (h : list string) :
  reachable JSON_parse h ->
  List.length h <= 20
  /\ forall e, In e h -> exists q, e = normalizeQuestion q.
Proof.
  induction 1 as [|h g t world k Hr [IHlen IHnorm]].
  - split; [simpl; lia | intros e []].
  - pose proof (attempt_history JSON_parse g t world h k) as Ha.
    destruct (attempt JSON_parse g t world h k) as [step h'].
    cbn [snd].
    destruct Ha as [[-> _] | (pd & q & a & _ & _ & _ & _ & _ & _ & ->)].
    + now split.
    + split; [now apply remember_length|].
      intros e He. apply remember_In in He.
      destruct He as [He | ->]; [now apply IHnorm | now exists q].
Qed.

Lemma retryLoop_reachable (key g t : string) (world : World)
      (budget : nat) :
  forall (retryCount : nat) (h : list string),
    reachable JSON_parse h ->
    reachable JSON_parse
              (history (retryLoop JSON_parse key g t world budget
                                  retryCount h)).
Proof.
  induction budget as [|budget IH]; intros retryCount h Hr.
  - exact Hr.
  - cbn [retryLoop].
    pose proof (reachable_invocation JSON_parse h g t world retryCount Hr)
      as Hstep.
    destruct (attempt JSON_parse g t world h retryCount) as [[r|ms] h'];
      cbn [snd] in Hstep; cbn [history].
    + exact Hstep.
    + now apply IH.
Qed.

(** The runs of the handler stay within the reachable states. *)
Lemma handler_reachable (query : Query) (world : World) (h : list string) :
  reachable JSON_parse h ->
  reachable JSON_parse (history (handler' query world h)).
Proof.
  intros Hr. unfold handler.
  destruct (normalizeTopic decodeURIComponent (topic query)) as [t|];
    [|exact Hr].
  destruct ((normalizeGrade (grade query) =? EmptyString)
            || (t =? EmptyString)); [exact Hr|].
  destruct (Js.member (normalizeGrade (grade query)) curriculumTopics)
    as [topics|b|]; [|exact Hr|exact Hr].
  destruct (negb (Js.arrIncludes (map toLowerCase topics) t)); [exact Hr|].
  destruct env_XAI_API_KEY as [[|c key]|]; try exact Hr.
  now apply retryLoop_reachable.
Qed.

Lemma serve_generated (requests : list (Query * World)) :
  forall (h : list string) (questions : list string)
         (runs : list Run) (final : list string),
    List.length h <= 20 ->
    serve' requests h = (runs, final) ->
    map generatedQuestion runs = map Some questions ->
    final = lastn 20 (h ++ map normalizeQuestion questions).
Proof.
  induction requests as [|[query world] requests IH];
    intros h questions runs final Hh Hs Hg.
  - injection Hs as <- <-. destruct questions; [|discriminate].
    simpl. rewrite app_nil_r. unfold lastn.
    now replace (List.length h - 20) with 0 by lia.
  - cbn [serve] in Hs.
    destruct (serve' requests (history (handler' query world h)))
      as [runs' final'] eqn:Hrest.
    injection Hs as <- <-.
    destruct questions as [|q questions]; [discriminate|].
    cbn [map] in Hg. injection Hg as Hq Hg.
    apply handler_generated in Hq.
    rewrite (IH (history (handler' query world h)) questions runs' final');
      [| |exact Hrest|exact Hg].
    + rewrite Hq, remember_lastn by exact Hh.
      rewrite lastn_app_lastn, <- app_assoc. reflexivity.
    + now apply handler_length.
Qed.

Lemma serve_reachable (requests : list (Query * World)) :
  forall (h : list string) (runs : list Run) (final : list string),
    reachable JSON_parse h ->
    serve' requests h = (runs, final) ->
    reachable JSON_parse final.
Proof.
  induction requests as [|[query world] requests IH];
    intros h runs final Hr Hs.
  - injection Hs as _ <-. exact Hr.
  - cbn [serve] in Hs.
    destruct (serve' requests (history (handler' query world h)))
      as [runs' final'] eqn:Hrest.
    injection Hs as _ <-.
    apply (IH _ runs' final' (handler_reachable query world h Hr) Hrest).
Qed.

End ServerFacts.

(** C3: in every state of the server, whatever the interleaving of
    invocations that led to it, the history holds at most 20 entries, each
    the normal form of a question; pushing onto a full history drops its
    oldest entry; and after a series of generated replies the history is
    the last 20 of what it held followed by the normal forms of their
    questions, so that 20 or more generations (25, say) leave the normal
    forms of the 20 most recent questions, in order. *)
Theorem history_bounded_fifo :
  forall (JSON_parse : string -> option JsVal)
         (decodeURIComponent : string -> option string)
         (curriculumTopics : list (string * list string))
         (env_XAI_API_KEY : option string),
    (forall h,
        reachable JSON_parse h ->
        List.length h <= 20
        /\ forall e, In e h -> exists q, e = normalizeQuestion q)
    /\ (forall h q,
           List.length h = 20 -> remember h q = (tl h ++ [q])%list)
    /\ (forall h requests questions runs final,
           reachable JSON_parse h ->
           serve JSON_parse decodeURIComponent curriculumTopics
                 env_XAI_API_KEY requests h = (runs, final) ->
           map generatedQuestion runs = map Some questions ->
           reachable JSON_parse final
           /\ final = lastn 20 (h ++ map normalizeQuestion questions)
           /\ (20 <= List.length questions ->
               final = map normalizeQuestion (lastn 20 questions))).
Proof.
  intros JSON_parse decodeURIComponent curriculumTopics env_XAI_API_KEY.
  split; [apply reachable_invariant|].
  split; [apply remember_full|].
  intros h requests questions runs final Hr Hs Hg.
  split.
  { apply (serve_reachable JSON_parse decodeURIComponent curriculumTopics
             env_XAI_API_KEY requests h runs final Hr Hs). }
  apply reachable_invariant in Hr. destruct Hr as [Hlen _].
  pose proof (serve_generated _ _ _ _ requests h questions runs final
                              Hlen Hs Hg) as Hfinal.
  split; [exact Hfinal|].
  intros Hlong. rewrite Hfinal, lastn_app_long, lastn_map;
    [reflexivity | now rewrite length_map].
Qed.

Lemma history_bounded_fifo_witness :
  snd (serve Sample.parse Sample.decode Sample.curriculum (Some "key")
             Sample.requests [])
  = map normalizeQuestion (lastn 20 Sample.questions).
Proof.
  destruct (serve Sample.parse Sample.decode Sample.curriculum (Some "key")
                  Sample.requests []) as [runs final] eqn:Hs.
  refine (proj2 (proj2 (proj2 (proj2 (history_bounded_fifo
                          Sample.parse Sample.decode Sample.curriculum
                          (Some "key")))
                   [] Sample.requests Sample.questions runs final
                   (reachable_start _) Hs _)) _).
  - vm_compute in Hs. injection Hs as <- _. vm_compute. reflexivity.
  - vm_compute. lia.
Defined.

(** ** The normaliser *)

Lemma normalizeQuestion_tokens (q1 q2 : string) :
  Permutation (split_ws (clean q1)) (split_ws (clean q2)) ->
  normalizeQuestion q1 = normalizeQuestion q2.
Proof.
  intros Hp. unfold normalizeQuestion. fold (clean q1) (clean q2).
  now rewrite (sort_permutation_eq _ _ Hp).
Qed.

Lemma normalizeQuestion_word_order (q1 q2 : string) :
  Permutation (split_ws q1) (split_ws q2) ->
  (forall w, In w (split_ws q1) -> w <> EmptyString -> keepsText w) ->
  normalizeQuestion q1 = normalizeQuestion q2.
Proof.
  intros Hp Hwords. apply normalizeQuestion_tokens.
  rewrite !tokens_clean.
  - now apply Permutation_map.
  - intros w Hin. apply Hwords.
    eapply Permutation_in; [apply Permutation_sym; exact Hp | exact Hin].
  - exact Hwords.
Qed.

Lemma variant_normalizeQuestion (q q' : string) :
  variant q q' -> normalizeQuestion q = normalizeQuestion q'.
Proof.
  intros [q'' H | q'' H | q'' Hp Hw].
  - unfold normalizeQuestion. now rewrite H.
  - apply normalizeQuestion_tokens. now rewrite H.
  - now apply normalizeQuestion_word_order.
Qed.

(** C4, amended: [normalizeQuestion] is the pipeline of the specification
    (lower-case, delete what is not a-z, 0-9 or whitespace, split on
    whitespace runs, sort, join with single spaces); two questions have
    the same normal form when they differ only in case, or only in deleted
    characters, or only in the order of their words provided every word
    keeps a letter or a digit; in general, when their cleaned texts split
    into the same tokens up to order. *)
Theorem normalizeQuestion_pipeline :
  (forall q, normalizeQuestion q = Spec.normalize q)
  /\ (forall q1 q2,
         toLowerCase q1 = toLowerCase q2 ->
         normalizeQuestion q1 = normalizeQuestion q2)
  /\ (forall q1 q2,
         clean q1 = clean q2 ->
         normalizeQuestion q1 = normalizeQuestion q2)
  /\ (forall q1 q2,
         Permutation (split_ws q1) (split_ws q2) ->
         (forall w, In w (split_ws q1) -> w <> EmptyString -> keepsText w) ->
         normalizeQuestion q1 = normalizeQuestion q2)
  /\ (forall q1 q2,
         Permutation (split_ws (clean q1)) (split_ws (clean q2)) ->
         normalizeQuestion q1 = normalizeQuestion q2).
Proof.
  split; [exact normalizeQuestion_spec|].
  split; [|split; [|split]].
  - intros q1 q2 H. now apply variant_normalizeQuestion, variant_case.
  - intros q1 q2 H. now apply variant_normalizeQuestion, variant_deleted.
  - exact normalizeQuestion_word_order.
  - exact normalizeQuestion_tokens.
Qed.

Lemma normalizeQuestion_pipeline_witness :
  normalizeQuestion "What is 2+2?" = normalizeQuestion "what IS 2+2?"
  /\ normalizeQuestion "What is 2+2?" = normalizeQuestion "What is: (2+2)"
  /\ normalizeQuestion "What is 2+2?" = normalizeQuestion "is What 2+2?".
Proof.
  destruct normalizeQuestion_pipeline as (_ & Hcase & Hdel & Hord & _).
  split; [|split].
  - apply Hcase. vm_compute. reflexivity.
  - apply Hdel. vm_compute. reflexivity.
  - apply Hord.
    + vm_compute. apply perm_swap.
    + intros w Hin _. vm_compute in Hin.
      destruct Hin as [<- | [<- | [<- | []]]]; vm_compute; discriminate.
Defined.

(** C4, as stated, fails: these two questions differ only in the order of
    their words, and their normal forms differ (the second keeps an empty
    token in front). *)
Lemma word_order_changes_normal_form :
  Permutation (split_ws "2 + 3") (split_ws "+ 2 3")
  /\ normalizeQuestion "2 + 3" <> normalizeQuestion "+ 2 3".
Proof.
  split.
  - vm_compute. apply perm_swap.
  - vm_compute. discriminate.
Qed.

(** ** Retry, error and success paths *)

Section PathFacts.

Variable JSON_parse : string -> option JsVal.
Variables XAI_API_KEY normalizedGrade normalizedTopic : string.
Variable world : World.

Local Abbreviation attempt' :=
  (attempt JSON_parse normalizedGrade normalizedTopic world).
Local Abbreviation generateProblem' :=
  (generateProblem JSON_parse XAI_API_KEY normalizedGrade normalizedTopic
                   world).
Local Abbreviation prompt' := (prompt normalizedGrade normalizedTopic world).

Lemma duplicate_retryCondition (h : list string) (retryCount : nat) :
  duplicateAt JSON_parse world h retryCount ->
  retryCondition JSON_parse h (axios_post world retryCount).
Proof.
  intros (data & text & pd & q & Hpost & Hc & Hparse & Hq & Hin).
  rewrite Hpost.
  destruct (parseProblem JSON_parse (JStr text)) as [pd'|] eqn:Hp.
  - destruct (parseProblem_Some _ _ _ Hp)
      as (text' & _ & _ & [= <-] & _ & _ & Hparse' & _).
    assert (pd' = pd) by congruence. subst pd'.
    now apply Duplicate with (JStr text) pd q.
  - now apply NoProblem with (JStr text).
Qed.

Lemma falsy_field_retryCondition (h : list string) (data : JsVal)
      (text : string) (problemData : JsVal) :
  completion data = Some (JStr text) ->
  JSON_parse text = Some problemData ->
  Js.truthy (Js.optProp problemData "question") = false
  \/ Js.truthy (Js.optProp problemData "answer") = false ->
  retryCondition JSON_parse h (Fulfilled data).
Proof.
  intros Hc Hparse Hfalsy.
  apply NoProblem with (JStr text); [exact Hc|].
  unfold parseProblem. rewrite Hparse. unfold Js.optProp in Hfalsy.
  destruct (negb (startsWith text "{") || negb (endsWith text "}"));
    [reflexivity|].
  destruct (Js.prop problemData "question") as [q|]; [|reflexivity].
  destruct (Js.prop problemData "answer") as [a|]; [|reflexivity].
  destruct Hfalsy as [-> | ->]; [reflexivity|].
  now rewrite orb_true_r.
Qed.

Lemma successfulReply_attempt (h : list string) (retryCount : nat)
      (problemData : JsVal) (question : string) (answer : JsVal) :
  successfulReply JSON_parse h (axios_post world retryCount)
                  problemData question answer ->
  attempt' h retryCount
  = (Respond (noStore (withType normalizedTopic problemData)),
     remember h (normalizeQuestion question)).
Proof.
  intros (data & text & Hpost & Hc & Hs & He & Hparse & Hq & Hne & Ha
          & Hta & Hnin).
  unfold attempt. rewrite Hpost.
  rewrite (completion_afterResponse _ _ _ _ _ Hc).
  rewrite (parseProblem_JStr _ _ _ _ _ Hs He Hparse Hq Ha).
  assert (Htq : Js.truthy (JStr question) = true)
    by (destruct question; [congruence | reflexivity]).
  rewrite Htq, Hta. cbn [andb]. rewrite Hq.
  destruct (Js.arrIncludes h (normalizeQuestion question)) eqn:Hdup;
    [|reflexivity].
  apply arrIncludes_In in Hdup. contradiction.
Qed.

Lemma transient_status (apiError : JsError) (r : ErrorResponse) :
  response apiError = Some r ->
  (errStatus r = 429 \/ errStatus r = 400 \/ errStatus r = 500)%Z ->
  transient apiError = true.
Proof.
  intros Hr Hs. unfold transient, statusIs. rewrite Hr.
  destruct Hs as [-> | [-> | ->]]; reflexivity.
Qed.

Lemma not_found_attempt (h : list string) (retryCount : nat)
      (apiError : JsError) (r : ErrorResponse) (msg : string) :
  axios_post world retryCount = Rejected apiError ->
  response apiError = Some r -> errStatus r = 404%Z ->
  errorMessage apiError = JStr msg ->
  attempt' h retryCount
  = if includes msg "model" then
      (Respond (errorReply "Model access error" modelDetails apiError), h)
    else if includes msg "resource was not found" then
      (Respond (errorReply "API endpoint error" endpointDetails apiError), h)
    else
      (Respond (json (fallbackProblem normalizedGrade normalizedTopic
                        (Math_random world retryCount 3))), h).
Proof.
  intros Hpost Hr Hs Hmsg.
  unfold attempt, onApiError, transient, isModelError, isResourceNotFound,
    statusIs.
  rewrite Hpost, Hr, Hs, Hmsg. cbn [Z.eqb Pos.eqb orb andb mentions].
  reflexivity.
Qed.

Lemma unreachable_attempt (h : list string) (retryCount : nat)
      (apiError : JsError) :
  axios_post world retryCount = Rejected apiError ->
  response apiError = None ->
  attempt' h retryCount
  = (Respond (json (fallbackProblem normalizedGrade normalizedTopic
                      (Math_random world retryCount 3))), h).
Proof.
  intros Hpost Hr.
  unfold attempt, onApiError, transient, isModelError, isResourceNotFound,
    statusIs.
  rewrite Hpost, Hr. reflexivity.
Qed.

(** The run of an invocation below the limit that replies. *)
Lemma generateProblem_responds (retryCount maxRetries : nat)
      (h h' : list string) (r : Response) :
  retryCount < maxRetries ->
  attempt' h retryCount = (Respond r, h') ->
  generateProblem' retryCount maxRetries h
  = {| outcome := Sent r; history := h';
       events := [AxiosPost XAI_API_KEY (prompt' retryCount)] |}.
Proof.
  intros Hlt Ha. rewrite generateProblem_eq.
  apply Nat.leb_gt in Hlt. rewrite Hlt. cbv zeta. now rewrite Ha.
Qed.

(** The run of an invocation below the limit that schedules a retry. *)
Lemma generateProblem_retries (retryCount maxRetries ms : nat)
      (h h' : list string) :
  retryCount < maxRetries ->
  attempt' h retryCount = (Retry ms, h') ->
  generateProblem' retryCount maxRetries h
  = let rest := generateProblem' (S retryCount) maxRetries h' in
    {| outcome := outcome rest; history := history rest;
       events := AxiosPost XAI_API_KEY (prompt' retryCount)
                   :: SetTimeout ms (S retryCount) :: events rest |}.
Proof.
  intros Hlt Ha. rewrite generateProblem_eq.
  apply Nat.leb_gt in Hlt. rewrite Hlt. cbv zeta. now rewrite Ha.
Qed.

End PathFacts.

Lemma handler_retries_then_fallback
      (JSON_parse : string -> option JsVal)
      (decodeURIComponent : string -> option string)
      (curriculumTopics : list (string * list string))
      (key : string) (query : Query) (world : World) (h : list string)
      (g t : string) :
  validRequest decodeURIComponent curriculumTopics query g t ->
  key <> EmptyString ->
  (forall i, i < 7 -> retryCondition JSON_parse h (axios_post world i)) ->
  let run := handler JSON_parse decodeURIComponent curriculumTopics
                     (Some key) query world h in
  outcome run = Sent (json (fallbackProblem g t (Math_random world 7 0)))
  /\ history run = h
  /\ attempts run = 7
  /\ delays (events run) = repeat 1000 7.
Proof.
  intros Hv Hk Hall. cbv zeta.
  rewrite (handler_valid _ _ _ key query world h g t Hv Hk).
  unfold generateProblem.
  apply (retryLoop_retries JSON_parse key g t world (7 - 0) 0 h).
  intros i Hi. apply retryCondition_attempt. apply Hall. lia.
Qed.

Lemma handler_retries_then_reply
      (JSON_parse : string -> option JsVal)
      (decodeURIComponent : string -> option string)
      (curriculumTopics : list (string * list string))
      (key : string) (query : Query) (world : World) (h h' : list string)
      (g t : string) (k : nat) (r : Response) :
  validRequest decodeURIComponent curriculumTopics query g t ->
  key <> EmptyString ->
  k < 7 ->
  (forall i, i < k -> retryCondition JSON_parse h (axios_post world i)) ->
  attempt JSON_parse g t world h k = (Respond r, h') ->
  let run := handler JSON_parse decodeURIComponent curriculumTopics
                     (Some key) query world h in
  outcome run = Sent r
  /\ history run = h'
  /\ attempts run = S k
  /\ delays (events run) = repeat 1000 k.
Proof.
  intros Hv Hk Hlt Hall Hlast. cbv zeta.
  rewrite (handler_valid _ _ _ key query world h g t Hv Hk).
  unfold generateProblem.
  apply (retryLoop_responds JSON_parse key g t world k (7 - 0) 0 h h' r).
  - intros i Hi. apply retryCondition_attempt. apply Hall. lia.
  - exact Hlast.
  - lia.
Qed.

(** ** The claims about the endpoint *)

Ltac sample_valid :=
  unfold validRequest;
  repeat match goal with
         | |- _ /\ _ => split
         | |- exists _, _ => eexists
         end;
  try (vm_compute; first [reflexivity | discriminate | tauto]).

(** The completions that the inner [try] turns into a retry: a text that
    fails the brace check, a text that does not parse, and a parsed value
    without a truthy question and a truthy answer. *)
Lemma unusable_completion_retryCondition
      (JSON_parse : string -> option JsVal) (h : list string)
      (data : JsVal) (text : string) :
  completion data = Some (JStr text) ->
  startsWith text "{" = false \/ endsWith text "}" = false
  \/ JSON_parse text = None
  \/ (exists problemData,
         JSON_parse text = Some problemData
         /\ (Js.truthy (Js.optProp problemData "question") = false
             \/ Js.truthy (Js.optProp problemData "answer") = false)) ->
  retryCondition JSON_parse h (Fulfilled data).
Proof.
  intros Hc Hbad. apply NoProblem with (JStr text); [exact Hc|].
  unfold parseProblem.
  destruct Hbad as [Hs | [He | [Hp | (pd & Hp & Hf)]]].
  - now rewrite Hs.
  - rewrite He. now rewrite orb_true_r.
  - rewrite Hp. now destruct (_ || _).
  - rewrite Hp. destruct (_ || _); [reflexivity|].
    unfold Js.optProp in Hf.
    destruct (Js.prop pd "question") as [q|]; [|reflexivity].
    destruct (Js.prop pd "answer") as [a|]; [|reflexivity].
    destruct Hf as [-> | ->]; [reflexivity|].
    now rewrite orb_true_r.
Qed.

(** What the fallback holds has at most twenty elements. *)
Lemma fallback_short (g t : string) : List.length (fallback g t) <= 20.
Proof.
  unfold fallback, Js.member, fallbackProblems, Js.builtinMember.
  unfold Js.Object_prototype. cbn [Js.own].
  repeat (match goal with
          | |- context [if ?b then _ else _] => destruct b
          end; cbn [Js.own Js.truthy Js.elements negb Z.eqb Z.of_nat
                    Pos.of_succ_nat Pos.succ];
          try (cbn [List.length list_ascii_of_string map]; lia)).
Qed.




(** C2, amended: an attempt whose parsed reply has a question with a
    normal form already in the history schedules a retry and leaves the
    history as it was; when all the remaining attempts are of that kind
    the endpoint sends the fallback problem.  The question of the reply
    is caught when it is a variant of a stored question that differs from
    it only in case, only in deleted characters, or only in the order of
    its words, every word keeping a letter or a digit. *)
Theorem duplicate_question_rejected :
  forall (JSON_parse : string -> option JsVal) (key g t : string)
         (world : World) (h : list string),
    (forall k, duplicateAt JSON_parse world h k ->
               attempt JSON_parse g t world h k = (Retry 1000, h))
    /\ (forall k,
           k <= 7 ->
           (forall i, k <= i < 7 -> duplicateAt JSON_parse world h i) ->
           let run := generateProblem JSON_parse key g t world k 7 h in
           outcome run
           = Sent (json (fallbackProblem g t (Math_random world 7 0)))
           /\ history run = h
           /\ attempts run = 7 - k)
    /\ (forall stored q,
           In (normalizeQuestion stored) h ->
           variant stored q ->
           In (normalizeQuestion q) h).
Proof.
  intros JSON_parse key g t world h.
  split; [|split].
  - intros k Hdup.
    now apply retryCondition_attempt, duplicate_retryCondition.
  - intros k Hk Hall. cbv zeta. unfold generateProblem.
    destruct (retryLoop_retries JSON_parse key g t world (7 - k) k h)
      as (Ho & Hh & Ha & _).
    + intros i Hi.
      apply retryCondition_attempt, duplicate_retryCondition, Hall. lia.
    + cbv zeta in Ho. replace (k + (7 - k)) with 7 in Ho by lia.
      repeat split; assumption.
  - intros stored q Hin Hv.
    now rewrite <- (variant_normalizeQuestion stored q Hv).
Qed.

Lemma duplicate_question_rejected_witness :
  let world := Sample.answers "Is what: 2+2" "4" in
  let h := [normalizeQuestion "What is 2+2?"] in
  let run := generateProblem Sample.parse "key" "10" "geometry" world 0 7 h in
  attempt Sample.parse "10" "geometry" world h 0 = (Retry 1000, h)
  /\ outcome run
     = Sent (json (fallbackProblem "10" "geometry" (Math_random world 7 0)))
  /\ history run = h
  /\ attempts run = 7.
Proof.
  cbv zeta.
  assert (Hdup : forall k,
             duplicateAt Sample.parse (Sample.answers "Is what: 2+2" "4")
                         [normalizeQuestion "What is 2+2?"] k).
  { intros k. eexists _, _, _, _.
    split; [reflexivity|].
    split; [vm_compute; reflexivity|].
    split; [vm_compute; reflexivity|].
    split; [reflexivity|].
    vm_compute. now left. }
  destruct (duplicate_question_rejected
              Sample.parse "key" "10" "geometry"
              (Sample.answers "Is what: 2+2" "4")
              [normalizeQuestion "What is 2+2?"]) as (Hone & Hall & _).
  split; [exact (Hone 0 (Hdup 0))|].
  apply (Hall 0); [lia | intros i _; apply Hdup].
Defined.

(** C2, as stated, fails: the reply repeats the stored question with its
    words in another order, and the attempt is accepted and recorded. *)
Lemma reordered_duplicate_accepted :
  let world := Sample.answers "+ 2 3" "5" in
  let h := [normalizeQuestion "2 + 3"] in
  Permutation (split_ws "2 + 3") (split_ws "+ 2 3")
  /\ attempt Sample.parse "10" "geometry" world h 0
     = (Respond
          (noStore (withType "geometry" (Sample.problemObject "+ 2 3" "5"))),
        ["2 3"; " 2 3"]).
Proof.
  cbv zeta. split.
  - vm_compute. apply perm_swap.
  - vm_compute. reflexivity.
Qed.

(** C5, amended: a provider failure with status 429, 400 or 500 makes the
    invocation schedule the next one after 1000 ms instead of replying; a
    404 failure whose error message contains "model" is answered at once
    with HTTP 400 and error 'Model access error'; a 404 failure whose
    error message contains "resource was not found" and does not contain
    "model" is answered at once with HTTP 400 and error 'API endpoint
    error'.  The two error replies end the run after that single call: no
    retry is scheduled and no fallback problem is sent. *)
Theorem status_code_branching :
  forall (JSON_parse : string -> option JsVal) (key g t : string)
         (world : World) (h : list string) (k maxRetries : nat)
         (apiError : JsError) (r : ErrorResponse),
    k < maxRetries ->
    axios_post world k = Rejected apiError ->
    response apiError = Some r ->
    let run := generateProblem JSON_parse key g t world k maxRetries h in
    let call := AxiosPost key (prompt g t world k) in
    let errorRun error details :=
      {| outcome :=
           Sent {| status := 400; headers := [];
                   body := JObj [("error", JStr error);
                                 ("details", JStr details);
                                 ("status", JNum 404);
                                 ("responseData", errData r)] |};
         history := h; events := [call] |} in
    ((errStatus r = 429 \/ errStatus r = 400 \/ errStatus r = 500)%Z ->
     attempt JSON_parse g t world h k = (Retry 1000, h)
     /\ let rest := generateProblem JSON_parse key g t world (S k)
                                    maxRetries h in
        run = {| outcome := outcome rest; history := history rest;
                 events := call :: SetTimeout 1000 (S k) :: events rest |})
    /\ (forall msg,
           errStatus r = 404%Z -> errorMessage apiError = JStr msg ->
           includes msg "model" = true ->
           run = errorRun "Model access error" modelDetails)
    /\ (forall msg,
           errStatus r = 404%Z -> errorMessage apiError = JStr msg ->
           includes msg "resource was not found" = true ->
           includes msg "model" = false ->
           run = errorRun "API endpoint error" endpointDetails).
Proof.
  intros JSON_parse key g t world h k maxRetries apiError r Hlt Hpost Hr
         run call errorRun.
  split; [|split].
  - intros Hs.
    assert (Ha : attempt JSON_parse g t world h k = (Retry 1000, h)).
    { apply retryCondition_attempt. rewrite Hpost.
      apply TransientStatus. now apply transient_status with r. }
    split; [exact Ha|].
    now apply generateProblem_retries.
  - intros msg Hs Hmsg Hmodel.
    unfold run, errorRun.
    rewrite (generateProblem_responds JSON_parse key g t world k maxRetries
               h h (errorReply "Model access error" modelDetails apiError)
               Hlt).
    + unfold errorReply. rewrite Hr, Hs. reflexivity.
    + rewrite (not_found_attempt JSON_parse g t world h k apiError r msg
                 Hpost Hr Hs Hmsg).
      now rewrite Hmodel.
  - intros msg Hs Hmsg Hres Hmodel.
    unfold run, errorRun.
    rewrite (generateProblem_responds JSON_parse key g t world k maxRetries
               h h (errorReply "API endpoint error" endpointDetails apiError)
               Hlt).
    + unfold errorReply. rewrite Hr, Hs. reflexivity.
    + rewrite (not_found_attempt JSON_parse g t world h k apiError r msg
                 Hpost Hr Hs Hmsg).
      now rewrite Hmodel, Hres.
Qed.

Lemma status_code_branching_witness :
  let failing (st : Z) msg := Sample.always (Rejected (Sample.httpError st msg)) in
  let run st msg :=
    generateProblem Sample.parse "key" "9" "algebra" (failing st msg) 0 7 []
  in
  let errorOf (r : Run) :=
    match outcome r with
    | Sent reply => (status reply, Js.prop (body reply) "error")
    | Threw _ => (0, None)
    end in
  attempt Sample.parse "9" "algebra" (failing 429%Z "Too many requests") [] 0
  = (Retry 1000, [])
  /\ (errorOf (run 404%Z "The model grok-3 does not exist")
      = (400, Some (JStr "Model access error"))
      /\ events (run 404%Z "The model grok-3 does not exist")
         = [AxiosPost "key"
              (prompt "9" "algebra"
                 (failing 404%Z "The model grok-3 does not exist") 0)])
  /\ (errorOf (run 404%Z "The requested resource was not found")
      = (400, Some (JStr "API endpoint error"))
      /\ events (run 404%Z "The requested resource was not found")
         = [AxiosPost "key"
              (prompt "9" "algebra"
                 (failing 404%Z "The requested resource was not found") 0)]).
Proof.
  cbv zeta.
  split; [|split].
  - refine (proj1 (proj1 (status_code_branching
                     Sample.parse "key" "9" "algebra"
                     (Sample.always
                        (Rejected (Sample.httpError 429 "Too many requests")))
                     [] 0 7 _ _ _ eq_refl eq_refl) _)).
    + lia.
    + now left.
  - rewrite (proj1 (proj2 (status_code_branching
               Sample.parse "key" "9" "algebra"
               (Sample.always
                  (Rejected
                     (Sample.httpError 404 "The model grok-3 does not exist")))
               [] 0 7 _ _ ltac:(lia) eq_refl eq_refl))
             "The model grok-3 does not exist" eq_refl eq_refl eq_refl).
    split; reflexivity.
  - rewrite (proj2 (proj2 (status_code_branching
               Sample.parse "key" "9" "algebra"
               (Sample.always
                  (Rejected
                     (Sample.httpError 404
                        "The requested resource was not found")))
               [] 0 7 _ _ ltac:(lia) eq_refl eq_refl))
             "The requested resource was not found"
             eq_refl eq_refl eq_refl eq_refl).
    split; reflexivity.
Defined.

(** C5, as stated, fails: this 404 failure has an error message that
    contains "resource was not found", and the reply is 'Model access
    error' because the message also contains "model". *)
Lemma model_error_takes_precedence :
  let apiError :=
    Sample.httpError 404 "The model resource was not found" in
  let run := generateProblem Sample.parse "key" "9" "algebra"
                             (Sample.always (Rejected apiError)) 0 7 [] in
  mentions (errorMessage apiError) "resource was not found" = true
  /\ exists reply,
      outcome run = Sent reply
      /\ Js.prop (body reply) "error" = Some (JStr "Model access error")
      /\ Js.prop (body reply) "error" <> Some (JStr "API endpoint error").
Proof.
  cbv zeta. split; [reflexivity|].
  eexists. split; [vm_compute; reflexivity|].
  split; [reflexivity | discriminate].
Qed.

(** C6: a request with a valid grade and topic, handled while no API key
    is configured, is answered with HTTP 500 and a configuration-error
    message; no provider call is made, no fallback problem is sent and
    the history is as it was. *)
Theorem missing_api_key :
  forall (JSON_parse : string -> option JsVal)
         (decodeURIComponent : string -> option string)
         (curriculumTopics : list (string * list string))
         (env_XAI_API_KEY : option string)
         (query : Query) (world : World) (h : list string) (g t : string),
    validRequest decodeURIComponent curriculumTopics query g t ->
    env_XAI_API_KEY = None \/ env_XAI_API_KEY = Some EmptyString ->
    let run := handler JSON_parse decodeURIComponent curriculumTopics
                       env_XAI_API_KEY query world h in
    outcome run
    = Sent {| status := 500; headers := [];
              body := JObj [("error",
                             JStr "Server configuration error: Missing API key")] |}
    /\ events run = []
    /\ attempts run = 0
    /\ history run = h
    /\ forall d, outcome run <> Sent (json (fallbackProblem g t d)).
Proof.
  intros JSON_parse decodeURIComponent curriculumTopics env query world h
         g t Hv Henv run.
  unfold run.
  rewrite (handler_no_key JSON_parse decodeURIComponent curriculumTopics
             env query world h g t Hv Henv).
  repeat split. intros d. discriminate.
Qed.

Lemma missing_api_key_witness :
  let run := handler Sample.parse Sample.decode Sample.curriculum None
                     (Sample.request "10" "Geometry")
                     (Sample.answers "2 + 3" "5") [] in
  outcome run
  = Sent {| status := 500; headers := [];
            body := JObj [("error",
                           JStr "Server configuration error: Missing API key")] |}
  /\ events run = []
  /\ attempts run = 0
  /\ history run = []
  /\ forall d, outcome run <> Sent (json (fallbackProblem "10" "geometry" d)).
Proof.
  refine (missing_api_key Sample.parse Sample.decode Sample.curriculum None
                          (Sample.request "10" "Geometry")
                          (Sample.answers "2 + 3" "5") [] "10" "geometry"
                          _ _).
  - sample_valid.
  - now left.
Defined.

(** What the validation does reject: a request without grade or topic,
    and a request whose decoded topic is not listed under its grade, are
    answered with HTTP 400 before any provider call. *)
Lemma invalid_request_rejected
      (JSON_parse : string -> option JsVal)
      (decodeURIComponent : string -> option string)
      (curriculumTopics : list (string * list string))
      (env_XAI_API_KEY : option string)
      (query : Query) (world : World) (h : list string) (t : string) :
  normalizeTopic decodeURIComponent (topic query) = Some t ->
  let g := normalizeGrade (grade query) in
  g = EmptyString \/ t = EmptyString
  \/ Js.member g curriculumTopics = Js.Missing
  \/ (exists topics,
         Js.own g curriculumTopics = Some topics
         /\ ~ In t (map toLowerCase topics)) ->
  let run := handler JSON_parse decodeURIComponent curriculumTopics
                     env_XAI_API_KEY query world h in
  exists text,
    outcome run
    = Sent {| status := 400; headers := [];
              body := JObj [("error", JStr text)] |}
    /\ events run = []
    /\ history run = h.
Proof.
  intros Ht g Hbad run. unfold run, handler. rewrite Ht. fold g.
  destruct (String.eqb_spec g EmptyString) as [Hg|Hg];
    [eexists; repeat split|].
  destruct (String.eqb_spec t EmptyString) as [Hte|Hte];
    [eexists; repeat split|].
  cbn [orb].
  destruct Hbad as [Hbad | [Hbad | [Hbad | (topics & Hown & Hbad)]]];
    try contradiction.
  - rewrite Hbad. eexists; repeat split.
  - rewrite (member_own _ _ _ Hown).
    destruct (Js.arrIncludes (map toLowerCase topics) t) eqn:Hin.
    + apply arrIncludes_In in Hin. contradiction.
    + eexists; repeat split.
Qed.

(** C7, at the input where the code departs from it: when the topic is
    not decodable, [decodeURIComponent] raises inside the [try] block, the
    outermost [catch] block raises a ReferenceError in turn, and the
    handler ends without the HTTP 400 reply. *)
Theorem undecodable_topic_not_rejected :
  forall (JSON_parse : string -> option JsVal)
         (decodeURIComponent : string -> option string)
         (curriculumTopics : list (string * list string))
         (env_XAI_API_KEY : option string)
         (query : Query) (world : World) (h : list string) (raw : string),
    topic query = Some raw ->
    raw <> EmptyString ->
    decodeURIComponent raw = None ->
    let run := handler JSON_parse decodeURIComponent curriculumTopics
                       env_XAI_API_KEY query world h in
    outcome run = Threw "ReferenceError: normalizedGrade is not defined"
    /\ (forall r, outcome run <> Sent r)
    /\ events run = []
    /\ history run = h.
Proof.
  intros JSON_parse decodeURIComponent curriculumTopics env query world h
         raw Ht Hne Hdec run.
  unfold run, handler, normalizeTopic. rewrite Ht.
  destruct raw as [|c raw]; [congruence|].
  rewrite Hdec. repeat split. intros r. discriminate.
Qed.

Lemma undecodable_topic_not_rejected_witness :
  let run := handler Sample.parse Sample.decode Sample.curriculum
                     (Some "key") (Sample.request "10" "%")
                     (Sample.answers "2 + 3" "5") [] in
  outcome run = Threw "ReferenceError: normalizedGrade is not defined"
  /\ (forall r, outcome run <> Sent r)
  /\ events run = []
  /\ history run = [].
Proof.
  refine (undecodable_topic_not_rejected
            Sample.parse Sample.decode Sample.curriculum (Some "key")
            (Sample.request "10" "%") (Sample.answers "2 + 3" "5") [] "%"
            _ _ _).
  - reflexivity.
  - discriminate.
  - reflexivity.
Defined.

(** C8: the history changes on the success path only.  A run of the
    handler either leaves it as it was, and then no generated reply is
    sent, or sends a generated reply and records the normal form of its
    question; an invocation that does anything but send the generated
    reply (a retry for whatever reason, an error reply, a fallback
    problem) returns the history it was given, and so does the invocation
    at the retry limit. *)
Theorem history_changes_on_success_only :
  forall (JSON_parse : string -> option JsVal)
         (decodeURIComponent : string -> option string)
         (curriculumTopics : list (string * list string))
         (env_XAI_API_KEY : option string)
         (query : Query) (world : World) (h : list string),
    let run := handler JSON_parse decodeURIComponent curriculumTopics
                       env_XAI_API_KEY query world h in
    ((history run = h /\ generatedQuestion run = None)
     \/ exists q,
         generatedQuestion run = Some q
         /\ ~ In (normalizeQuestion q) h
         /\ history run = remember h (normalizeQuestion q))
    /\ (forall g t k step h',
           attempt JSON_parse g t world h k = (step, h') ->
           (forall b, step <> Respond (noStore b)) ->
           h' = h)
    /\ (forall g t k, history (exhausted g t world h k) = h).
Proof.
  intros JSON_parse decodeURIComponent curriculumTopics env query world h
         run.
  split; [|split].
  - destruct (handler_history JSON_parse decodeURIComponent curriculumTopics
                env query world h)
      as [(Hsame & Hnone & _)
         | (t & pd & q & a & _ & _ & _ & _ & _ & Hnin & Hq & Hh)].
    + now left.
    + right. now exists q.
  - intros g t k step h' Ha Hns.
    pose proof (attempt_history JSON_parse g t world h k) as Hhist.
    rewrite Ha in Hhist.
    destruct Hhist as [[-> _] | (pd & q & a & -> & _)]; [reflexivity|].
    now destruct (Hns (withType t pd)).
  - reflexivity.
Qed.

Lemma history_changes_on_success_only_witness :
  let run := handler Sample.parse Sample.decode Sample.curriculum
                     (Some "key") (Sample.request "10" "Geometry")
                     (Sample.answers "2 + 3" "5") ["2 3"] in
  history run = ["2 3"] /\ generatedQuestion run = None.
Proof.
  cbv zeta.
  destruct (proj1 (history_changes_on_success_only
                     Sample.parse Sample.decode Sample.curriculum
                     (Some "key") (Sample.request "10" "Geometry")
                     (Sample.answers "2 + 3" "5") ["2 3"]))
    as [Hsame | (q & Hq & _)].
  - exact Hsame.
  - vm_compute in Hq. discriminate.
Defined.

(** C9, amended: on a successful attempt (the parsed object has a
    question that is a non-empty string and a truthy answer, and the
    question is no duplicate), reached after any number of retries below
    the limit, the endpoint replies 200 with the header
    [Cache-Control: no-store] and the parsed object with [type] set to
    the normalised topic, the lower-cased and trimmed decoding of the
    query parameter; the question and the answer of the reply are those
    parsed, neither empty; and the normal form of the question becomes the
    newest entry of the history. *)
Theorem successful_generation :
  forall (JSON_parse : string -> option JsVal)
         (decodeURIComponent : string -> option string)
         (curriculumTopics : list (string * list string))
         (key : string) (query : Query) (world : World) (h : list string)
         (g t : string) (k : nat)
         (problemData : JsVal) (question : string) (answer : JsVal),
    validRequest decodeURIComponent curriculumTopics query g t ->
    key <> EmptyString ->
    k < 7 ->
    (forall i, i < k -> retryCondition JSON_parse h (axios_post world i)) ->
    successfulReply JSON_parse h (axios_post world k)
                    problemData question answer ->
    let run := handler JSON_parse decodeURIComponent curriculumTopics
                       (Some key) query world h in
    exists sent,
      outcome run
      = Sent {| status := 200; headers := [("Cache-Control", "no-store")];
                body := sent |}
      /\ sent = withType t problemData
      /\ Js.prop sent "type" = Some (JStr t)
      /\ Js.prop sent "question" = Some (JStr question)
      /\ question <> EmptyString
      /\ Js.prop sent "answer" = Some answer
      /\ answer <> JStr EmptyString
      /\ (exists raw decoded,
             topic query = Some raw
             /\ decodeURIComponent raw = Some decoded
             /\ t = toLowerCase (trim decoded))
      /\ history run = remember h (normalizeQuestion question)
      /\ (exists older,
             history run = (older ++ [normalizeQuestion question])%list)
      /\ attempts run = S k.
Proof.
  intros JSON_parse decodeURIComponent curriculumTopics key query world h
         g t k pd q a Hv Hk Hlt Hall Hok run.
  pose proof (successfulReply_attempt JSON_parse g t world h k pd q a Hok)
    as Ha.
  destruct (handler_retries_then_reply JSON_parse decodeURIComponent
              curriculumTopics key query world h _ g t k _ Hv Hk Hlt Hall Ha)
    as (Ho & Hh & Hn & _).
  destruct Hok as (data & text & _ & _ & _ & _ & _ & Hq & Hne & Hans & Hta
                   & _).
  assert (Htq : Js.truthy (JStr q) = true)
    by (destruct q; [congruence | reflexivity]).
  destruct (withType_fields t pd (JStr q) a Hq Htq Hans)
    as (Hbq & Hba & Hbt).
  exists (withType t pd).
  split; [exact Ho|]. split; [reflexivity|].
  split; [exact Hbt|]. split; [exact Hbq|]. split; [exact Hne|].
  split; [exact Hba|].
  split; [intros ->; discriminate|].
  split.
  { destruct Hv as (Ht & _ & _ & Htne & _). unfold normalizeTopic in Ht.
    destruct (topic query) as [[|c raw]|]; try congruence.
    destruct (decodeURIComponent (String c raw)) as [decoded|] eqn:Hd;
      [|discriminate].
    injection Ht as <-. now exists (String c raw), decoded. }
  split; [exact Hh|].
  split; [|exact Hn].
  unfold run. rewrite Hh. unfold remember. cbv zeta.
  destruct (Nat.ltb_spec 20 (List.length (h ++ [normalizeQuestion q])))
    as [Hfull|_].
  - destruct h as [|x h']; [simpl in Hfull; lia|]. now exists h'.
  - now exists h.
Qed.

Lemma successful_generation_witness :
  let run := handler Sample.parse Sample.decode Sample.curriculum
                     (Some "key") (Sample.request "10" " Geometry ")
                     (Sample.answers "2 + 3" "5") [] in
  outcome run
  = Sent {| status := 200; headers := [("Cache-Control", "no-store")];
            body := JObj [("question", JStr "2 + 3"); ("answer", JStr "5");
                          ("options", JArr []); ("type", JStr "geometry")] |}
  /\ history run = ["2 3"]
  /\ attempts run = 1.
Proof.
  cbv zeta.
  destruct (successful_generation
              Sample.parse Sample.decode Sample.curriculum "key"
              (Sample.request "10" " Geometry ")
              (Sample.answers "2 + 3" "5") [] "10" "geometry" 0
              (Sample.problemObject "2 + 3" "5") "2 + 3" (JStr "5"))
    as (sent & Ho & -> & _ & _ & _ & _ & _ & _ & Hh & _ & Ha).
  - sample_valid.
  - discriminate.
  - lia.
  - intros i Hi. lia.
  - eexists _, _. split; [reflexivity|].
    repeat split; try (vm_compute; reflexivity); try discriminate.
    vm_compute. tauto.
  - split; [exact Ho|]. split; [exact Hh | exact Ha].
Defined.

(** A question that is not a string, although truthy, is not normalised:
    the call of [toLowerCase] raises, and [catch (apiError)] sends the
    fallback problem at once. *)
Lemma non_string_question_falls_back
      (JSON_parse : string -> option JsVal) (g t : string) (world : World)
      (h : list string) (k : nat) (data : JsVal) (text : string)
      (problemData question answer : JsVal) :
  axios_post world k = Fulfilled data ->
  completion data = Some (JStr text) ->
  startsWith text "{" = true -> endsWith text "}" = true ->
  JSON_parse text = Some problemData ->
  Js.prop problemData "question" = Some question ->
  Js.prop problemData "answer" = Some answer ->
  Js.truthy question = true -> Js.truthy answer = true ->
  (forall s, question <> JStr s) ->
  attempt JSON_parse g t world h k
  = (Respond (json (fallbackProblem g t (Math_random world k 3))), h).
Proof.
  intros Hpost Hc Hs He Hparse Hq Ha Htq Hta Hns.
  unfold attempt. rewrite Hpost.
  rewrite (completion_afterResponse _ _ _ _ _ Hc).
  rewrite (parseProblem_JStr _ _ _ _ _ Hs He Hparse Hq Ha).
  rewrite Htq, Hta. cbn [andb]. rewrite Hq.
  destruct question as [| | | | s | |];
    try reflexivity; try discriminate.
  now destruct (Hns s).
Qed.

(** C9, as stated, fails: the parsed object has a question, the number
    5, and an answer, and no question is in the history; the normaliser
    raises on the number, and the endpoint sends a fallback problem
    without the no-store directive and records nothing. *)
Lemma numeric_question_not_recorded :
  let world :=
    Sample.always (Fulfilled (Sample.chatCompletion Edge.numericText)) in
  let run := handler Edge.parse Sample.decode Sample.curriculum
                     (Some "key") (Sample.request "10" "Geometry") world [] in
  (Edge.parse Edge.numericText = Some Edge.numericObject
   /\ Js.prop Edge.numericObject "question" = Some (JNum 5)
   /\ Js.truthy (JNum 5) = true
   /\ Js.prop Edge.numericObject "answer" = Some (JStr "x")
   /\ Js.truthy (JStr "x") = true)
  /\ outcome run = Sent (json (fallbackProblem "10" "geometry" Sample.half))
  /\ (forall sent, outcome run <> Sent (noStore sent))
  /\ history run = []
  /\ attempts run = 1.
Proof.
  cbv zeta. split; [repeat split; vm_compute; reflexivity|].
  split; [vm_compute; reflexivity|].
  split; [intros sent; vm_compute; discriminate|].
  split; reflexivity.
Qed.

(** C10: a completion that parses to an object whose question or answer
    is falsy (the empty string, [null], [0], [false], or no such field at
    all) meets the same retry: nothing is sent, the next invocation is
    scheduled and the history stays; hence a generated reply always has a
    non-empty string as question and a truthy answer. *)
Theorem falsy_fields_rejected :
  forall (JSON_parse : string -> option JsVal)
         (decodeURIComponent : string -> option string)
         (curriculumTopics : list (string * list string))
         (env_XAI_API_KEY : option string)
         (g t : string) (world : World) (h : list string),
    (forall k data text problemData,
        axios_post world k = Fulfilled data ->
        completion data = Some (JStr text) ->
        JSON_parse text = Some problemData ->
        Js.truthy (Js.optProp problemData "question") = false
        \/ Js.truthy (Js.optProp problemData "answer") = false ->
        attempt JSON_parse g t world h k = (Retry 1000, h))
    /\ (forall query r,
           outcome (handler JSON_parse decodeURIComponent curriculumTopics
                            env_XAI_API_KEY query world h) = Sent r ->
           headers r = [("Cache-Control", "no-store")] ->
           exists question answer,
             Js.prop (body r) "question" = Some (JStr question)
             /\ question <> EmptyString
             /\ Js.prop (body r) "answer" = Some answer
             /\ Js.truthy answer = true
             /\ answer <> JStr EmptyString).
Proof.
  intros JSON_parse decodeURIComponent curriculumTopics env g t world h.
  split.
  - intros k data text pd Hpost Hc Hparse Hfalsy.
    apply retryCondition_attempt. rewrite Hpost.
    now apply falsy_field_retryCondition with text pd.
  - intros query r Ho Hr.
    destruct (handler_history JSON_parse decodeURIComponent curriculumTopics
                env query world h)
      as [(_ & _ & Hplain)
         | (t' & pd & q & a & Ho' & Hq & Hne & Ha & Hta & _)].
    + rewrite (Hplain r Ho) in Hr. discriminate.
    + rewrite Ho in Ho'. injection Ho' as ->.
      assert (Htq : Js.truthy (JStr q) = true)
        by (destruct q; [congruence | reflexivity]).
      destruct (withType_fields t' pd (JStr q) a Hq Htq Ha) as (Hbq & Hba & _).
      exists q, a. cbn [body noStore].
      repeat split; try assumption.
      intros ->. discriminate.
Qed.

Lemma falsy_fields_rejected_witness :
  attempt Sample.parse "10" "geometry" (Sample.answers EmptyString "5")
          ["2 3"] 0
  = (Retry 1000, ["2 3"])
  /\ attempt Sample.parse "10" "geometry"
             (Sample.answers "What is 3+3?" EmptyString) ["2 3"] 0
     = (Retry 1000, ["2 3"]).
Proof.
  split.
  - refine (proj1 (falsy_fields_rejected
                     Sample.parse Sample.decode Sample.curriculum
                     (Some "key") "10" "geometry"
                     (Sample.answers EmptyString "5") ["2 3"])
                  0 _ (Sample.problemText EmptyString "5")
                  (Sample.problemObject EmptyString "5") eq_refl _ _ _).
    + vm_compute. reflexivity.
    + vm_compute. reflexivity.
    + left. reflexivity.
  - refine (proj1 (falsy_fields_rejected
                     Sample.parse Sample.decode Sample.curriculum
                     (Some "key") "10" "geometry"
                     (Sample.answers "What is 3+3?" EmptyString) ["2 3"])
                  0 _ (Sample.problemText "What is 3+3?" EmptyString)
                  (Sample.problemObject "What is 3+3?" EmptyString)
                  eq_refl _ _ _).
    + vm_compute. reflexivity.
    + vm_compute. reflexivity.
    + right. reflexivity.
Defined.

(** * Further properties of the code *)

(** ** The alphabet and the collisions of the normaliser *)

Lemma chars_append (a b : string) : chars (a ++ b) = (chars a ++ chars b)%list.
Proof. unfold chars. induction a as [|c a IH]; simpl; congruence. Qed.

Lemma fields_chars (s w : string) (c : ascii) :
  In w (Spec.fields s) -> In c (chars w) ->
  In c (chars s) /\ Spec.whitespace c = false.
Proof.
  revert w. induction s as [|x s IH]; intros w Hw Hc.
  - destruct Hw as [<-|[]]. destruct Hc.
  - cbn [Spec.fields] in Hw.
    destruct (Spec.whitespace x) eqn:Hx.
    + destruct Hw as [<-|Hw]; [destruct Hc|].
      destruct (IH w Hw Hc) as [Hin Hws]. split; [now right | exact Hws].
    + pose proof (fields_nonempty s) as Hne.
      destruct (Spec.fields s) as [|f fs]; [congruence|].
      destruct Hw as [<-|Hw].
      * destruct Hc as [<-|Hc]; [split; [now left | exact Hx]|].
        destruct (IH f (or_introl eq_refl) Hc) as [Hin Hws].
        split; [now right | exact Hws].
      * destruct (IH w (or_intror Hw) Hc) as [Hin Hws].
        split; [now right | exact Hws].
Qed.

Lemma tokens_fields (s w : string) :
  In w (Spec.tokens s) -> In w (Spec.fields s).
Proof.
  unfold Spec.tokens.
  destruct (Spec.fields s) as [|f [|g gs]]; [intros [] | now intros |].
  intros [->|Hin]; [now left|]. right.
  apply in_app_or in Hin. destruct Hin as [Hin|[<-|[]]].
  - apply filter_In in Hin. destruct Hin as [Hin _].
    now apply In_removelast.
  - destruct (exists_last (l := g :: gs) ltac:(discriminate)) as (l' & a & E).
    rewrite E, last_last. apply in_or_app. right. now left.
Qed.

Lemma split_ws_chars (s w : string) (c : ascii) :
  In w (split_ws s) -> In c (chars w) ->
  In c (chars s) /\ isSpace c = false.
Proof.
  rewrite split_ws_tokens, isSpace_whitespace. intros Hw.
  apply fields_chars. now apply tokens_fields.
Qed.

Lemma replace_nonWord_chars (s : string) (c : ascii) :
  In c (chars (replace_nonWord s)) -> nonWordChar c = false.
Proof.
  induction s as [|x s IH]; [intros []|].
  cbn [replace_nonWord]. destruct (nonWordChar x) eqn:Hx; [exact IH|].
  intros [<-|Hc]; [exact Hx | now apply IH].
Qed.

Lemma concat_chars (sep : string) (l : list string) (c : ascii) :
  In c (chars (String.concat sep l)) ->
  In c (chars sep) \/ exists w, In w l /\ In c (chars w).
Proof.
  induction l as [|x [|y l] IH]; [intros [] | |].
  - intros Hc. right. exists x. split; [now left | exact Hc].
  - cbn [String.concat]. rewrite !chars_append. intros Hc.
    apply in_app_or in Hc. destruct Hc as [Hc|Hc].
    { right. exists x. split; [now left | exact Hc]. }
    apply in_app_or in Hc. destruct Hc as [Hc|Hc]; [now left|].
    destruct (IH Hc) as [Hs | (w & Hw & Hcw)]; [now left|].
    right. exists w. split; [now right | exact Hcw].
Qed.

Lemma plain_of_word (c : ascii) :
  nonWordChar c = false -> isSpace c = false -> plainChar c = true.
Proof.
  unfold nonWordChar, plainChar. intros H1 H2. rewrite H2 in H1.
  apply negb_false_iff in H1. rewrite orb_false_r in H1. rewrite H1.
  reflexivity.
Qed.

(** X1: a normal form consists of lower-case letters a-z, digits and
    space characters only. *)
Theorem normalizeQuestion_alphabet :
  forall (q : string) (c : ascii),
    In c (chars (normalizeQuestion q)) -> plainChar c = true.
Proof.
  intros q c Hc. unfold normalizeQuestion, join in Hc.
  apply concat_chars in Hc. destruct Hc as [[<-|[]] | (w & Hw & Hcw)];
    [reflexivity|].
  assert (Hw' : In w (split_ws (replace_nonWord (toLowerCase q)))).
  { eapply Permutation_in; [apply Permutation_sym, sort_perm | exact Hw]. }
  destruct (split_ws_chars _ _ _ Hw' Hcw) as [Hin Hsp].
  apply plain_of_word; [|exact Hsp].
  now apply replace_nonWord_chars with (toLowerCase q).
Qed.

Lemma normalizeQuestion_alphabet_witness :
  Forall (fun c => plainChar c = true)
         (chars (normalizeQuestion "What is 7 x 8 (in Base-10)?")).
Proof.
  apply Forall_forall. intros c Hc.
  exact (normalizeQuestion_alphabet "What is 7 x 8 (in Base-10)?" c Hc).
Defined.

(** Joining with single spaces loses nothing when no token holds
    whitespace: cutting at the spaces gives the tokens back. *)

Lemma fields_spaceFree (w : string) : spaceFree w -> Spec.fields w = [w].
Proof.
  induction w as [|c w IH]; intros Hw; [reflexivity|].
  cbn [Spec.fields]. rewrite (Hw c (or_introl eq_refl)).
  rewrite IH; [reflexivity|]. intros x Hx. apply Hw. now right.
Qed.

Lemma fields_append_space (w rest : string) :
  spaceFree w ->
  Spec.fields (w ++ String " " rest) = w :: Spec.fields rest.
Proof.
  induction w as [|c w IH]; intros Hw; [reflexivity|].
  cbn [append Spec.fields]. rewrite (Hw c (or_introl eq_refl)).
  rewrite IH; [reflexivity|]. intros x Hx. apply Hw. now right.
Qed.

Lemma fields_concat (l : list string) :
  l <> [] -> Forall spaceFree l -> Spec.fields (String.concat " " l) = l.
Proof.
  induction l as [|x [|y l] IH]; intros Hne Hall; [congruence | |].
  - cbn [String.concat]. apply fields_spaceFree. now inversion Hall.
  - inversion Hall as [|? ? Hx Hrest]; subst.
    change (String.concat " " (x :: y :: l))
      with (x ++ String " " (String.concat " " (y :: l))).
    rewrite (fields_append_space _ _ Hx), IH; [reflexivity | discriminate |].
    exact Hrest.
Qed.

Lemma split_ws_nonempty (s : string) : split_ws s <> [].
Proof.
  rewrite split_ws_tokens. unfold Spec.tokens.
  pose proof (fields_nonempty s).
  destruct (Spec.fields s) as [|f [|g gs]]; [congruence | |]; discriminate.
Qed.

Lemma split_ws_spaceFree (s : string) : Forall spaceFree (split_ws s).
Proof.
  apply Forall_forall. intros w Hw c Hc.
  rewrite <- isSpace_whitespace.
  now destruct (split_ws_chars s w c Hw Hc).
Qed.

Lemma sort_split_ws_tokens (s : string) :
  sort (split_ws s) <> [] /\ Forall spaceFree (sort (split_ws s)).
Proof.
  pose proof (sort_perm (split_ws s)) as Hp. split.
  - intros E. rewrite E in Hp. apply Permutation_sym, Permutation_nil in Hp.
    now apply (split_ws_nonempty s).
  - eapply Permutation_Forall; [exact Hp | apply split_ws_spaceFree].
Qed.

(** X2: two questions have the same normal form exactly when their
    cleaned texts split into the same tokens up to order; in particular
    equal normal forms have the same number of tokens, empty ones
    counted. *)
Theorem normalizeQuestion_collision :
  forall q1 q2 : string,
    (normalizeQuestion q1 = normalizeQuestion q2
     <-> Permutation (split_ws (clean q1)) (split_ws (clean q2)))
    /\ (normalizeQuestion q1 = normalizeQuestion q2 ->
        List.length (split_ws (clean q1)) = List.length (split_ws (clean q2))).
Proof.
  intros q1 q2.
  assert (Hiff : normalizeQuestion q1 = normalizeQuestion q2
                 -> Permutation (split_ws (clean q1)) (split_ws (clean q2))).
  { unfold normalizeQuestion, join. fold (clean q1) (clean q2). intros E.
    destruct (sort_split_ws_tokens (clean q1)) as [Hn1 Hf1].
    destruct (sort_split_ws_tokens (clean q2)) as [Hn2 Hf2].
    apply (f_equal Spec.fields) in E.
    rewrite !fields_concat in E by assumption.
    rewrite (sort_perm (split_ws (clean q1))), E.
    apply Permutation_sym, sort_perm. }
  split; [split; [exact Hiff | apply normalizeQuestion_tokens]|].
  intros E. now apply Permutation_length, Hiff.
Qed.

Lemma normalizeQuestion_collision_witness :
  Permutation (split_ws (clean "3 plus 2")) (split_ws (clean "2 PLUS 3!"))
  /\ List.length (split_ws (clean "3 plus 2")) = 3.
Proof.
  assert (E : normalizeQuestion "3 plus 2" = normalizeQuestion "2 PLUS 3!")
    by (vm_compute; reflexivity).
  split.
  - exact (proj1 (proj1 (normalizeQuestion_collision "3 plus 2" "2 PLUS 3!"))
                 E).
  - rewrite (proj2 (normalizeQuestion_collision "3 plus 2" "2 PLUS 3!") E).
    vm_compute. reflexivity.
Defined.

(** ** The history as a duplicate filter *)

Lemma remember_NoDup (h : list string) (q : string) :
  NoDup h -> ~ In q h -> NoDup (remember h q).
Proof.
  intros Hh Hq. unfold remember. cbv zeta.
  assert (Hpushed : NoDup (h ++ [q])).
  { apply NoDup_app; [exact Hh | repeat constructor; intros [] |].
    intros x Hx [<-|[]]. contradiction. }
  destruct (20 <? List.length (h ++ [q]))%nat; [|exact Hpushed].
  destruct (h ++ [q])%list; [constructor | now inversion Hpushed].
Qed.

Lemma remember_snoc (h : list string) (q : string) :
  exists older, remember h q = (older ++ [q])%list.
Proof.
  unfold remember. cbv zeta.
  destruct (Nat.ltb_spec 20 (List.length (h ++ [q]))) as [Hfull|_].
  - destruct h as [|x h']; [simpl in Hfull; lia | now exists h'].
  - now exists h.
Qed.

Lemma remember_newest (h : list string) (q : string) : In q (remember h q).
Proof.
  destruct (remember_snoc h q) as [older ->].
  apply in_or_app. right. now left.
Qed.

(** X3: in every state of the server, whatever the interleaving of
    invocations that led to it, no normal form occurs twice in the
    history. *)
Theorem history_has_no_duplicates :
  forall (JSON_parse : string -> option JsVal) (h : list string),
    reachable JSON_parse h -> NoDup h.
Proof.
  intros JSON_parse h. induction 1 as [|h g t world k Hr IH].
  - constructor.
  - pose proof (attempt_history JSON_parse g t world h k) as Ha.
    destruct (attempt JSON_parse g t world h k) as [step h']. cbn [snd].
    destruct Ha as [[-> _] | (pd & q & a & _ & _ & _ & _ & _ & Hnin & ->)].
    + exact IH.
    + now apply remember_NoDup.
Qed.

Lemma history_has_no_duplicates_witness :
  NoDup (snd (attempt Sample.parse "10" "geometry"
                      (Sample.answers "What is 2+2?" "4")
                      (snd (attempt Sample.parse "10" "geometry"
                                    (Sample.answers "2 + 3" "5") [] 0)) 0)).
Proof.
  apply (history_has_no_duplicates Sample.parse).
  apply reachable_invocation, reachable_invocation, reachable_start.
Defined.

(** X4: the question of a generated reply is in the history that the run
    leaves, and the next request cannot get it again: when every
    provider call of that request brings a question with the same normal
    form, the endpoint makes its 7 attempts and sends the fallback
    problem, the history staying as the first run left it. *)
Theorem repeated_question_ends_in_fallback :
  forall (JSON_parse : string -> option JsVal)
         (decodeURIComponent : string -> option string)
         (curriculumTopics : list (string * list string))
         (key : string) (first second : Query) (world world' : World)
         (h : list string) (q g t : string),
    let run := handler JSON_parse decodeURIComponent curriculumTopics
                       (Some key) first world h in
    generatedQuestion run = Some q ->
    validRequest decodeURIComponent curriculumTopics second g t ->
    (forall i, i < 7 ->
       exists data text problemData q',
         axios_post world' i = Fulfilled data
         /\ completion data = Some (JStr text)
         /\ JSON_parse text = Some problemData
         /\ Js.prop problemData "question" = Some (JStr q')
         /\ normalizeQuestion q' = normalizeQuestion q) ->
    let run' := handler JSON_parse decodeURIComponent curriculumTopics
                        (Some key) second world' (history run) in
    In (normalizeQuestion q) (history run)
    /\ outcome run'
       = Sent (json (fallbackProblem g t (Math_random world' 7 0)))
    /\ attempts run' = 7
    /\ history run' = history run.
Proof.
  intros JSON_parse decodeURIComponent curriculumTopics key first second
         world world' h q g t run Hq Hv Hall run'.
  assert (Hin : In (normalizeQuestion q) (history run)).
  { unfold run. rewrite (handler_generated _ _ _ _ _ _ _ _ Hq).
    apply remember_newest. }
  assert (Hkey : key <> EmptyString).
  { intros ->. unfold run, handler in Hq.
    destruct (normalizeTopic decodeURIComponent (topic first));
      [|discriminate].
    destruct (_ || _); [discriminate|].
    destruct (Js.member _ curriculumTopics); [|discriminate|discriminate].
    destruct (negb _); discriminate. }
  split; [exact Hin|].
  destruct (handler_retries_then_fallback JSON_parse decodeURIComponent
              curriculumTopics key second world' (history run) g t Hv Hkey)
    as (Ho & Hh & Ha & _).
  - intros i Hi. apply duplicate_retryCondition.
    destruct (Hall i Hi) as (data & text & pd & q' & H1 & H2 & H3 & H4 & H5).
    exists data, text, pd, q'. rewrite H5. auto.
  - auto.
Qed.

Lemma repeated_question_ends_in_fallback_witness :
  let run := handler Sample.parse Sample.decode Sample.curriculum
                     (Some "key") (Sample.request "10" "Geometry")
                     (Sample.answers "What is 2+2?" "4") [] in
  let run' := handler Sample.parse Sample.decode Sample.curriculum
                      (Some "key") (Sample.request "10" "Functions")
                      (Sample.answers "Is what: 2+2" "4") (history run) in
  In (normalizeQuestion "What is 2+2?") (history run)
  /\ outcome run'
     = Sent (json (fallbackProblem "10" "functions" Sample.half))
  /\ attempts run' = 7
  /\ history run' = history run.
Proof.
  refine (repeated_question_ends_in_fallback
            Sample.parse Sample.decode Sample.curriculum "key"
            (Sample.request "10" "Geometry") (Sample.request "10" "Functions")
            (Sample.answers "What is 2+2?" "4")
            (Sample.answers "Is what: 2+2" "4") []
            "What is 2+2?" "10" "functions" _ _ _).
  - vm_compute. reflexivity.
  - sample_valid.
  - intros i _. eexists _, _, _, _.
    split; [reflexivity|].
    split; [vm_compute; reflexivity|].
    split; [vm_compute; reflexivity|].
    split; [reflexivity|].
    vm_compute. reflexivity.
Defined.

(** A recent entry stays in the history, and the questions generated
    meanwhile differ from it, for as long as fewer than 20 entries have
    been pushed after it. *)
Lemma serve_fresh
      (JSON_parse : string -> option JsVal)
      (decodeURIComponent : string -> option string)
      (curriculumTopics : list (string * list string))
      (env_XAI_API_KEY : option string)
      (requests : list (Query * World)) :
  forall (h older newer : list string) (e : string)
         (questions : list string) (runs : list Run) (final : list string),
    List.length h <= 20 ->
    h = (older ++ e :: newer)%list ->
    List.length newer + List.length questions <= 20 ->
    serve JSON_parse decodeURIComponent curriculumTopics env_XAI_API_KEY
          requests h = (runs, final) ->
    map generatedQuestion runs = map Some questions ->
    ~ In e (map normalizeQuestion questions).
Proof.
  induction requests as [|[query world] requests IH];
    intros h older newer e questions runs final Hlen Hh Hn Hs Hg.
  - injection Hs as <- <-. destruct questions; [intros [] | discriminate].
  - cbn [serve] in Hs.
    destruct (serve JSON_parse decodeURIComponent curriculumTopics
                    env_XAI_API_KEY requests
                    (history (handler JSON_parse decodeURIComponent
                                curriculumTopics env_XAI_API_KEY query world h)))
      as [runs' final'] eqn:Hrest.
    injection Hs as <- <-.
    destruct questions as [|q questions]; [discriminate|].
    cbn [map] in Hg. injection Hg as Hq Hg.
    destruct (handler_history JSON_parse decodeURIComponent curriculumTopics
                env_XAI_API_KEY query world h)
      as [(_ & Hnone & _)
         | (t & pd & q' & a & _ & _ & _ & _ & _ & Hnin & Hq' & Hh')];
      [congruence|].
    rewrite Hq' in Hq. injection Hq as ->.
    cbn [map]. intros [He|He].
    + apply Hnin. rewrite He, Hh. apply in_or_app. right. now left.
    + destruct questions as [|q2 questions]; [destruct He|].
      revert He.
      apply (IH (history (handler JSON_parse decodeURIComponent
                            curriculumTopics env_XAI_API_KEY query world h))
                (skipn (List.length (h ++ [normalizeQuestion q]) - 20) older)
                (newer ++ [normalizeQuestion q])%list e (q2 :: questions)
                runs' final').
      * rewrite Hh'. now apply remember_length.
      * rewrite Hh', (remember_lastn _ _ Hlen). unfold lastn.
        set (n := List.length (h ++ [normalizeQuestion q]) - 20).
        assert (Hn0 : n - List.length older = 0).
        { subst n. rewrite Hh, !length_app. cbn [List.length] in *. lia. }
        rewrite Hh, <- app_assoc. cbn [app].
        rewrite skipn_app, Hn0. reflexivity.
      * rewrite length_app. cbn [List.length] in *. lia.
      * exact Hrest.
      * exact Hg.
Qed.

(** X5: the history forgets.  After a generated reply with question [q]
    and 20 further generated replies, the normal form of [q] is no longer
    in the history (which holds the normal forms of those 20), so that the
    provider may bring [q] again. *)
Theorem question_forgotten_after_twenty :
  forall (JSON_parse : string -> option JsVal)
         (decodeURIComponent : string -> option string)
         (curriculumTopics : list (string * list string))
         (env_XAI_API_KEY : option string)
         (requests : list (Query * World)) (h : list string)
         (q : string) (others : list string)
         (runs : list Run) (final : list string),
    reachable JSON_parse h ->
    serve JSON_parse decodeURIComponent curriculumTopics env_XAI_API_KEY
          requests h = (runs, final) ->
    map generatedQuestion runs = map Some (q :: others) ->
    List.length others = 20 ->
    final = map normalizeQuestion others
    /\ ~ In (normalizeQuestion q) final.
Proof.
  intros JSON_parse decodeURIComponent curriculumTopics env requests h q
         others runs final Hr Hs Hg Hlen.
  destruct (reachable_invariant JSON_parse h Hr) as [Hh _].
  assert (Hfinal : final = map normalizeQuestion others).
  { rewrite (serve_generated _ _ _ _ requests h (q :: others) runs final
               Hh Hs Hg).
    change (q :: others) with ([q] ++ others)%list.
    rewrite map_app, app_assoc, lastn_app_long
      by (rewrite length_map; lia).
    unfold lastn. rewrite length_map, Hlen. reflexivity. }
  split; [exact Hfinal|]. rewrite Hfinal.
  destruct requests as [|[query world] requests].
  { injection Hs as <- _. discriminate. }
  cbn [serve] in Hs.
  destruct (serve JSON_parse decodeURIComponent curriculumTopics env requests
                  (history (handler JSON_parse decodeURIComponent
                              curriculumTopics env query world h)))
    as [runs' final'] eqn:Hrest.
  injection Hs as <- <-. cbn [map] in Hg. injection Hg as Hq Hg.
  pose proof (handler_generated _ _ _ _ _ _ _ _ Hq) as Hh1.
  destruct (remember_snoc h (normalizeQuestion q)) as [older Ho].
  rewrite Hh1 in Hrest.
  apply (serve_fresh JSON_parse decodeURIComponent curriculumTopics env
           requests (remember h (normalizeQuestion q)) older []
           (normalizeQuestion q) others runs' final').
  - now apply remember_length.
  - exact Ho.
  - cbn [List.length]. lia.
  - exact Hrest.
  - exact Hg.
Qed.

Lemma question_forgotten_after_twenty_witness :
  let requests :=
    (Sample.request "10" "Geometry", Sample.answers "2 + 3" "5")
      :: firstn 20 Sample.requests in
  ~ In (normalizeQuestion "2 + 3")
       (snd (serve Sample.parse Sample.decode Sample.curriculum (Some "key")
                   requests [])).
Proof.
  cbv zeta.
  destruct (serve Sample.parse Sample.decode Sample.curriculum (Some "key")
                  ((Sample.request "10" "Geometry",
                    Sample.answers "2 + 3" "5") :: firstn 20 Sample.requests)
                  []) as [runs final] eqn:Hs.
  refine (proj2 (question_forgotten_after_twenty
                   Sample.parse Sample.decode Sample.curriculum (Some "key")
                   _ [] "2 + 3" (firstn 20 Sample.questions) runs final
                   (reachable_start _) Hs _ _)).
  - vm_compute in Hs. injection Hs as <- _. vm_compute. reflexivity.
  - vm_compute. reflexivity.
Defined.

(** ** The replies of the generator *)

Lemma fallback_entries (g t : string) (x : JsVal) :
  Js.inherited g = false -> Js.inherited t = false ->
  In x (fallback g t) ->
  exists q a, x = problem q a t /\ q <> EmptyString /\ a <> EmptyString.
Proof.
  intros Hg Ht. rewrite (fallback_plain g t Hg Ht). clear Hg Ht.
  assert (Hplaceholder :
            In x [placeholder g t] ->
            exists q a, x = problem q a t /\ q <> EmptyString
                        /\ a <> EmptyString).
  { intros [<-|[]]. unfold placeholder. eexists _, _.
    split; [reflexivity|]. split; discriminate. }
  unfold fallbackProblems. cbn [Js.own].
  destruct ("10" =? g); [|exact Hplaceholder]. cbn [Js.own].
  repeat match goal with
         | |- context [if String.eqb ?k t then _ else _] =>
             destruct (String.eqb_spec k t) as [<-|_]; cbn [Js.own]
         end;
    try exact Hplaceholder;
    cbn [In]; intros Hin;
    repeat (destruct Hin as [<-|Hin];
            [eexists _, _; split; [reflexivity|]; split; discriminate|]);
    destruct Hin.
Qed.

Lemma problem_wellFormed (q a t : string) :
  q <> EmptyString -> a <> EmptyString -> wellFormedProblem t (problem q a t).
Proof.
  intros Hq Ha. exists q, (JStr a). repeat split; try reflexivity.
  - exact Hq.
  - cbn [Js.truthy]. now destruct a.
Qed.

Lemma fallbackProblem_entry (g t : string) (d : Draw) :
  Js.inherited g = false -> Js.inherited t = false ->
  inUnitInterval d ->
  exists q a,
    fallbackProblem g t d = problem q a t
    /\ q <> EmptyString /\ a <> EmptyString.
Proof.
  intros Hg Ht Hd. apply (fallback_entries g t _ Hg Ht).
  apply fallbackProblem_In; [exact Hd | now apply fallback_nonempty].
Qed.

Lemma fallbackProblem_wellFormed (g t : string) (d : Draw) :
  Js.inherited g = false -> Js.inherited t = false ->
  inUnitInterval d -> wellFormedProblem t (fallbackProblem g t d).
Proof.
  intros Hg Ht Hd.
  destruct (fallbackProblem_entry g t d Hg Ht Hd) as (q & a & E & Hq & Ha).
  rewrite E. now apply problem_wellFormed.
Qed.

(** A topic that the bank's object of the grade inherits brings a
    built-in function or object, under whose indexes there is nothing. *)
Lemma fallbackProblem_inherited (g t : string)
      (byTopic : list (string * list JsVal)) (d : Draw) :
  Js.own g fallbackProblems = Some byTopic ->
  Js.own t byTopic = None ->
  Js.inherited t = true ->
  fallbackProblem g t d = JUndefined.
Proof.
  intros Hg Hown Ht. unfold fallbackProblem, fallback.
  rewrite (member_own _ _ _ Hg). unfold Js.member. rewrite Hown.
  unfold Js.inherited in Ht.
  destruct (Js.own t Js.Object_prototype); [|discriminate].
  now destruct (pick d (List.length (@nil JsVal))).
Qed.

(** X6: for a grade and a topic that are not names of [Object.prototype],
    a fallback problem chosen with a draw of the unit interval is a canned
    or synthesized problem whose question and answer are non-empty
    strings and whose type is the requested topic.  For a grade of the
    bank and a topic that the bank does not list under it and that
    [Object.prototype] names, the value is [undefined]. *)
Theorem fallback_problem_well_formed :
  forall (g t : string) (d : Draw),
    (Js.inherited g = false -> Js.inherited t = false ->
     inUnitInterval d ->
     (exists q a,
         fallbackProblem g t d = problem q a t
         /\ q <> EmptyString /\ a <> EmptyString)
     /\ wellFormedProblem t (fallbackProblem g t d))
    /\ (forall byTopic,
           Js.own g fallbackProblems = Some byTopic ->
           Js.own t byTopic = None ->
           Js.inherited t = true ->
           fallbackProblem g t d = JUndefined).
Proof.
  intros g t d. split.
  - intros Hg Ht Hd.
    destruct (fallbackProblem_entry g t d Hg Ht Hd) as (q & a & E & Hq & Ha).
    split; [now exists q, a|]. now apply fallbackProblem_wellFormed.
  - intros byTopic. apply fallbackProblem_inherited.
Qed.

Lemma fallback_problem_well_formed_witness :
  wellFormedProblem "trigonometry"
                    (fallbackProblem "10" "trigonometry"
                                     Edge.nearFourSevenths)
  /\ wellFormedProblem "fractions"
                       (fallbackProblem "4" "fractions"
                                        Edge.nearFourSevenths)
  /\ fallbackProblem "10" "constructor" Edge.nearFourSevenths = JUndefined.
Proof.
  split; [|split].
  - refine (proj2 (proj1 (fallback_problem_well_formed
                            "10" "trigonometry" Edge.nearFourSevenths)
                         _ _ _)); [reflexivity | reflexivity |].
    vm_compute. repeat split; discriminate.
  - refine (proj2 (proj1 (fallback_problem_well_formed
                            "4" "fractions" Edge.nearFourSevenths)
                         _ _ _)); [reflexivity | reflexivity |].
    vm_compute. repeat split; discriminate.
  - refine (proj2 (fallback_problem_well_formed
                     "10" "constructor" Edge.nearFourSevenths) _ _ _ _);
      reflexivity.
Defined.

Section ReplyFacts.

Variable JSON_parse : string -> option JsVal.
Variables XAI_API_KEY normalizedGrade normalizedTopic : string.
Variable world : World.

Local Abbreviation attempt' :=
  (attempt JSON_parse normalizedGrade normalizedTopic world).
Local Abbreviation onApiError' :=
  (onApiError normalizedGrade normalizedTopic world).
Local Abbreviation retryLoop' :=
  (retryLoop JSON_parse XAI_API_KEY normalizedGrade normalizedTopic world).

Local Abbreviation possibleReply' :=
  (possibleReply normalizedGrade normalizedTopic world).

Lemma onApiError_reply (h : list string) (k : nat) (e : JsError)
      (r : Response) (h' : list string) :
  onApiError' h k e = (Respond r, h') -> possibleReply' r.
Proof.
  unfold onApiError.
  destruct (transient e); [discriminate|].
  destruct (isModelError e); [intros [= <- _]; constructor|].
  destruct (isResourceNotFound e); intros [= <- _]; constructor.
Qed.

Lemma attempt_reply (h : list string) (k : nat) (r : Response)
      (h' : list string) :
  attempt' h k = (Respond r, h') -> possibleReply' r.
Proof.
  unfold attempt.
  destruct (axios_post world k) as [data|e];
    [|apply onApiError_reply].
  destruct (completion data) as [content|] eqn:Hc.
  - rewrite (completion_afterResponse _ _ _ _ _ Hc).
    destruct (parseProblem JSON_parse content) as [pd|] eqn:Hp;
      [|discriminate].
    destruct (parseProblem_Some _ _ _ Hp)
      as (text & q & a & -> & _ & _ & _ & Hq & Ha & Htq & Hta).
    rewrite Hq.
    destruct q as [| | | | question| |]; try apply onApiError_reply.
    destruct (Js.arrIncludes h (normalizeQuestion question));
      [discriminate|].
    intros [= <- _]. apply reply_generated with question a; try assumption.
    intros ->. discriminate.
  - unfold completion in Hc. unfold afterResponse.
    destruct (Js.prop data "choices") as [choices|];
      [|apply onApiError_reply].
    destruct (Js.truthy choices) eqn:Hch; [|discriminate]. cbn [negb].
    pose proof (truthy_elem0 _ Hch) as He.
    destruct (Js.elem0 choices) as [first|]; [|congruence].
    cbv zeta in Hc |- *.
    destruct (Js.truthy (Js.optProp (Js.optProp first "message") "content"));
      discriminate.
Qed.

Lemma retryLoop_reply (budget : nat) :
  forall (k : nat) (h : list string),
  exists r, outcome (retryLoop' budget k h) = Sent r /\ possibleReply' r.
Proof.
  induction budget as [|budget IH]; intros k h.
  - eexists. split; [reflexivity | constructor].
  - cbn [retryLoop].
    destruct (attempt' h k) as [[r|ms] h'] eqn:Ha.
    + exists r. split; [reflexivity | now apply attempt_reply with h k h'].
    + apply IH.
Qed.

Lemma retryLoop_bounds (budget : nat) :
  forall (k : nat) (h : list string),
    let run := retryLoop' budget k h in
    attempts run <= budget
    /\ List.length (delays (events run)) <= attempts run
    /\ Forall (eq 1000) (delays (events run))
    /\ Forall (eq XAI_API_KEY) (bearers (events run)).
Proof.
  induction budget as [|budget IH]; intros k h; cbv zeta.
  - cbn. repeat split; (lia || constructor).
  - cbn [retryLoop].
    pose proof (attempt_history JSON_parse normalizedGrade normalizedTopic
                                world h k) as Hh.
    destruct (attempt' h k) as [[r|ms] h'].
    + unfold attempts. cbn.
      repeat split; try lia; repeat constructor.
    + destruct Hh as [[_ ->] | (pd & q & a & Hs & _)]; [|discriminate].
      destruct (IH (S k) h') as (Ha & Hl & Hd & Hb).
      unfold attempts in *.
      cbn [outcome history events calls delays bearers List.length].
      repeat split; try lia; constructor; auto.
Qed.

End ReplyFacts.

Lemma possibleReply_contract (g t : string) (world : World) (r : Response) :
  unitDraws world ->
  possibleReply g t world r ->
  (status r = 200
   /\ (wellFormedProblem t (body r)
       \/ ((Js.inherited g = true \/ Js.inherited t = true)
           /\ exists i j,
               r = json (fallbackProblem g t (Math_random world i j)))))
  \/ (status r = 400
      /\ exists text, Js.prop (body r) "error" = Some (JStr text)).
Proof.
  intros Hu [pd q a Hq Hne Ha Hta | e | e | i j].
  - left. split; [reflexivity|].
    assert (Htq : Js.truthy (JStr q) = true)
      by (destruct q; [congruence | reflexivity]).
    destruct (withType_fields t pd (JStr q) a Hq Htq Ha) as (Hbq & Hba & Hbt).
    left. now exists q, a.
  - right. split; [reflexivity|]. now eexists.
  - right. split; [reflexivity|]. now eexists.
  - left. split; [reflexivity|].
    destruct (Js.inherited g) eqn:Hg; [right; split; [now left | eauto]|].
    destruct (Js.inherited t) eqn:Ht; [right; split; [now right | eauto]|].
    left. apply fallbackProblem_wellFormed; [exact Hg | exact Ht | apply Hu].
Qed.

(** X7: the provider is called at most [maxRetries - retryCount] times by
    [generateProblem], hence at most 7 times for a request; at most one
    wait is scheduled per call and every wait is 1000 ms; every call
    carries the API key of the environment. *)
Theorem provider_calls_bounded :
  forall (JSON_parse : string -> option JsVal)
         (decodeURIComponent : string -> option string)
         (curriculumTopics : list (string * list string))
         (env_XAI_API_KEY : option string)
         (query : Query) (world : World) (h : list string),
    (forall key g t retryCount maxRetries,
        attempts (generateProblem JSON_parse key g t world retryCount
                                  maxRetries h)
        <= maxRetries - retryCount)
    /\ let run := handler JSON_parse decodeURIComponent curriculumTopics
                          env_XAI_API_KEY query world h in
       attempts run <= 7
       /\ List.length (delays (events run)) <= attempts run
       /\ Forall (eq 1000) (delays (events run))
       /\ Forall (fun bearer => env_XAI_API_KEY = Some bearer)
                 (bearers (events run)).
Proof.
  intros JSON_parse decodeURIComponent curriculumTopics env query world h.
  split.
  { intros key g t k m. unfold generateProblem.
    apply (retryLoop_bounds JSON_parse key g t world (m - k) k h). }
  cbv zeta. unfold handler.
  assert (Hquiet : forall r,
             attempts (reply r h) <= 7
             /\ List.length (delays (events (reply r h)))
                <= attempts (reply r h)
             /\ Forall (eq 1000) (delays (events (reply r h)))
             /\ Forall (fun bearer => env = Some bearer)
                       (bearers (events (reply r h)))).
  { intros r. cbn. repeat split; (lia || constructor). }
  destruct (normalizeTopic decodeURIComponent (topic query)) as [t|].
  2:{ cbn. repeat split; (lia || constructor). }
  destruct (_ || _); [apply Hquiet|].
  destruct (Js.member _ curriculumTopics) as [topics|b|];
    [|cbn; repeat split; (lia || constructor)|apply Hquiet].
  destruct (negb _); [apply Hquiet|].
  destruct env as [[|c key]|]; try apply Hquiet.
  unfold generateProblem, maxRetries.
  destruct (retryLoop_bounds JSON_parse (String c key)
              (normalizeGrade (grade query)) t world (7 - 0) 0 h)
    as (Ha & Hl & Hd & Hb).
  repeat split; try assumption; try lia.
  eapply Forall_impl; [|exact Hb]. now intros b <-.
Qed.



(** ** Failures that end an attempt at once *)

(** X9: a provider failure with a status other than 429, 400 and 500
    that is not one of the two recognised 404 errors (401, 403 or 503, say,
    or a 404 whose message names neither phrase) is answered at once with
    the fallback problem and status 200: one call, no retry, and the
    history as it was. *)
Theorem other_failure_falls_back :
  forall (JSON_parse : string -> option JsVal) (key g t : string)
         (world : World) (h : list string) (k maxRetries : nat)
         (apiError : JsError) (r : ErrorResponse),
    k < maxRetries ->
    axios_post world k = Rejected apiError ->
    response apiError = Some r ->
    (errStatus r <> 429 /\ errStatus r <> 400 /\ errStatus r <> 500)%Z ->
    (errStatus r = 404%Z ->
     mentions (errorMessage apiError) "model" = false
     /\ mentions (errorMessage apiError) "resource was not found" = false) ->
    generateProblem JSON_parse key g t world k maxRetries h
    = {| outcome :=
           Sent {| status := 200; headers := [];
                   body := fallbackProblem g t (Math_random world k 3) |};
         history := h;
         events := [AxiosPost key (prompt g t world k)] |}.
Proof.
  intros JSON_parse key g t world h k maxRetries e r Hlt Hpost Hr
         (H429 & H400 & H500) H404.
  apply generateProblem_responds; [exact Hlt|].
  unfold attempt, onApiError, transient, isModelError, isResourceNotFound,
    statusIs.
  rewrite Hpost, Hr.
  apply Z.eqb_neq in H429, H400, H500. rewrite H429, H400, H500.
  cbn [orb].
  destruct (Z.eqb_spec (errStatus r) 404) as [E|_]; [|reflexivity].
  destruct (H404 E) as [-> ->]. reflexivity.
Qed.

Lemma other_failure_falls_back_witness :
  let world := Sample.always (Rejected (Sample.httpError 401 "Invalid API key")) in
  let run := generateProblem Sample.parse "key" "10" "functions" world 0 7
                             ["2 3"] in
  outcome run = Sent (json (fallbackProblem "10" "functions" Sample.half))
  /\ attempts run = 1
  /\ history run = ["2 3"].
Proof.
  cbv zeta.
  rewrite (other_failure_falls_back
             Sample.parse "key" "10" "functions"
             (Sample.always (Rejected (Sample.httpError 401 "Invalid API key")))
             ["2 3"] 0 7 _ _ ltac:(lia) eq_refl eq_refl).
  - repeat split.
  - repeat split; discriminate.
  - discriminate.
Defined.

(** X10: a fulfilled call whose body is [undefined] or [null] is not
    retried: reading [choices] raises, and the fallback problem is sent
    at once with the history as it was. *)
Theorem empty_body_falls_back :
  forall (JSON_parse : string -> option JsVal) (key g t : string)
         (world : World) (h : list string) (k maxRetries : nat)
         (data : JsVal),
    k < maxRetries ->
    axios_post world k = Fulfilled data ->
    data = JUndefined \/ data = JNull ->
    generateProblem JSON_parse key g t world k maxRetries h
    = {| outcome := Sent (json (fallbackProblem g t (Math_random world k 3)));
         history := h;
         events := [AxiosPost key (prompt g t world k)] |}.
Proof.
  intros JSON_parse key g t world h k maxRetries data Hlt Hpost Hdata.
  apply generateProblem_responds; [exact Hlt|].
  unfold attempt. rewrite Hpost.
  destruct Hdata as [-> | ->]; reflexivity.
Qed.

Lemma empty_body_falls_back_witness :
  let run := generateProblem Sample.parse "key" "10" "geometry"
                             (Sample.always (Fulfilled JNull)) 0 7 [] in
  In (outcome run) (map (fun p => Sent (json p)) (fallback "10" "geometry"))
  /\ attempts run = 1.
Proof.
  cbv zeta.
  rewrite (empty_body_falls_back Sample.parse "key" "10" "geometry"
             (Sample.always (Fulfilled JNull)) [] 0 7 JNull
             ltac:(lia) eq_refl (or_intror eq_refl)).
  split; [vm_compute; tauto | reflexivity].
Defined.

(** X11: a parsed question that is truthy without being a string (a
    number, an array, an object) passes the inner checks and then makes
    the normaliser raise; the run ends there with the fallback problem
    instead of a retry, and nothing is recorded. *)
Theorem non_string_question_not_retried :
  forall (JSON_parse : string -> option JsVal) (key g t : string)
         (world : World) (h : list string) (k maxRetries : nat)
         (data : JsVal) (text : string)
         (problemData question answer : JsVal),
    k < maxRetries ->
    axios_post world k = Fulfilled data ->
    completion data = Some (JStr text) ->
    startsWith text "{" = true -> endsWith text "}" = true ->
    JSON_parse text = Some problemData ->
    Js.prop problemData "question" = Some question ->
    Js.prop problemData "answer" = Some answer ->
    Js.truthy question = true -> Js.truthy answer = true ->
    (forall s, question <> JStr s) ->
    generateProblem JSON_parse key g t world k maxRetries h
    = {| outcome := Sent (json (fallbackProblem g t (Math_random world k 3)));
         history := h;
         events := [AxiosPost key (prompt g t world k)] |}.
Proof.
  intros JSON_parse key g t world h k maxRetries data text pd q a Hlt
         Hpost Hc Hs He Hp Hq Ha Htq Hta Hns.
  apply generateProblem_responds; [exact Hlt|].
  now apply non_string_question_falls_back
    with data text pd q a.
Qed.

Lemma non_string_question_not_retried_witness :
  let world :=
    Sample.always (Fulfilled (Sample.chatCompletion Edge.numericText)) in
  let run := generateProblem Edge.parse "key" "10" "geometry" world 0 7
                             ["2 3"] in
  outcome run = Sent (json (fallbackProblem "10" "geometry" Sample.half))
  /\ attempts run = 1
  /\ history run = ["2 3"].
Proof.
  cbv zeta.
  rewrite (non_string_question_not_retried
             Edge.parse "key" "10" "geometry"
             (Sample.always
                (Fulfilled (Sample.chatCompletion Edge.numericText)))
             ["2 3"] 0 7 (Sample.chatCompletion Edge.numericText)
             Edge.numericText Edge.numericObject (JNum 5) (JStr "x")).
  - repeat split.
  - lia.
  - reflexivity.
  - vm_compute. reflexivity.
  - vm_compute. reflexivity.
  - vm_compute. reflexivity.
  - vm_compute. reflexivity.
  - reflexivity.
  - reflexivity.
  - reflexivity.
  - reflexivity.
  - intros s. discriminate.
Defined.

(** ** The object sent on the success path *)

Lemma assign_assign (k : string) (v v' : JsVal) (o : list (string * JsVal)) :
  Js.assign k v (Js.assign k v' o) = Js.assign k v o.
Proof.
  induction o as [|[k0 v0] o IH]; cbn [Js.assign].
  - now rewrite String.eqb_refl.
  - destruct (String.eqb_spec k0 k) as [->|Hk]; cbn [Js.assign].
    + now rewrite String.eqb_refl.
    + apply String.eqb_neq in Hk. now rewrite Hk, IH.
Qed.

Lemma assign_keys (k : string) (v : JsVal) (o : list (string * JsVal)) :
  map fst (Js.assign k v o)
  = if existsb (String.eqb k) (map fst o) then map fst o
    else (map fst o ++ [k])%list.
Proof.
  induction o as [|[k0 v0] o IH]; [reflexivity|].
  cbn [Js.assign map fst existsb].
  rewrite (String.eqb_sym k k0).
  destruct (String.eqb_spec k0 k) as [->|Hk]; [reflexivity|].
  cbn [map fst orb]. rewrite IH.
  now destruct (existsb (String.eqb k) (map fst o)).
Qed.

(** X12: the object sent on the success path holds the properties of the
    parsed object in their order and with their values, except that
    [type] is the normalised topic: a type that the provider supplied is
    overwritten in place, and a missing one is added last. *)
Theorem reply_keeps_provider_fields :
  forall (t : string) (props : list (string * JsVal)),
    let sent := withType t (JObj props) in
    (forall k, k <> "type" -> Js.prop sent k = Js.prop (JObj props) k)
    /\ Js.prop sent "type" = Some (JStr t)
    /\ (exists props',
           sent = JObj props'
           /\ map fst props'
              = if existsb (String.eqb "type") (map fst props)
                then map fst props
                else (map fst props ++ ["type"])%list)
    /\ (forall t', withType t (withType t' (JObj props)) = sent).
Proof.
  intros t props sent. unfold sent. cbn [withType Js.prop].
  split; [|split; [|split]].
  - intros k Hk. now rewrite own_assign_other.
  - now rewrite own_assign_same.
  - eexists. split; [reflexivity | apply assign_keys].
  - intros t'. now rewrite assign_assign.
Qed.

Lemma reply_keeps_provider_fields_witness :
  let run := handler Edge.parse Sample.decode Sample.curriculum (Some "key")
                     (Sample.request "10" "Geometry")
                     (Sample.always
                        (Fulfilled (Sample.chatCompletion Edge.typedText)))
                     [] in
  outcome run
  = Sent (noStore (JObj [("type", JStr "geometry");
                         ("question", JStr "2 + 3"); ("answer", JStr "5")]))
  /\ Js.prop (withType "geometry" Edge.typedObject) "answer"
     = Some (JStr "5").
Proof.
  split; [vm_compute; reflexivity|]. unfold Edge.typedObject.
  rewrite (proj1 (reply_keeps_provider_fields
                    "geometry"
                    [("type", JStr "algebra"); ("question", JStr "2 + 3");
                     ("answer", JStr "5")]) "answer");
    [reflexivity | discriminate].
Defined.

(** ** The prompt *)

Lemma choose_In (options : list string) (d : Draw) :
  inUnitInterval d -> options <> [] -> In (choose options d) options.
Proof.
  intros Hd Hne. unfold choose. apply nth_In, pick_bound; [exact Hd|].
  destruct options; [congruence | simpl; lia].
Qed.

Lemma choose_reaches (options : list string) (i : nat) :
  i < List.length options ->
  (N.of_nat (List.length options) < 2 ^ 32)%N ->
  inUnitInterval (drawFor i (List.length options))
  /\ choose options (drawFor i (List.length options))
     = nth i options "undefined".
Proof.
  intros Hi Hn. destruct (pick_reaches i _ Hi Hn) as [Hd Hp].
  split; [exact Hd|]. unfold choose. now rewrite Hp.
Qed.

(** X13: with draws of the unit interval, the prompt of an invocation
    names one of the four question types, one of the five contexts and one
    of the three difficulties, together with the grade and the topic; and
    each entry of a list of fewer than [2 ^ 32] entries, as every array
    is, is chosen by some draw of the unit interval. *)
Theorem prompt_names_its_parts :
  forall (g t : string) (world : World) (retryCount : nat),
    unitDraws world ->
    (exists type context difficulty,
        In type questionTypes /\ In context contexts
        /\ In difficulty difficulties
        /\ includes (prompt g t world retryCount) type = true
        /\ includes (prompt g t world retryCount) context = true
        /\ includes (prompt g t world retryCount) difficulty = true)
    /\ includes (prompt g t world retryCount) g = true
    /\ includes (prompt g t world retryCount) t = true
    /\ (forall options x,
           (N.of_nat (List.length options) < 2 ^ 32)%N ->
           In x options ->
           exists d, inUnitInterval d /\ choose options d = x).
Proof.
  intros g t world k Hu.
  split; [|split; [|split]].
  - exists (choose questionTypes (Math_random world k 0)),
           (choose contexts (Math_random world k 1)),
           (choose difficulties (Math_random world k 2)).
    split; [apply choose_In; [apply Hu | discriminate]|].
    split; [apply choose_In; [apply Hu | discriminate]|].
    split; [apply choose_In; [apply Hu | discriminate]|].
    unfold prompt. cbv zeta. split; [|split].
    + apply includes_later, includes_here.
    + do 7 apply includes_later. apply includes_here.
    + do 13 apply includes_later. apply includes_here.
  - unfold prompt. cbv zeta. do 3 apply includes_later. apply includes_here.
  - unfold prompt. cbv zeta. do 5 apply includes_later. apply includes_here.
  - intros options x Hn Hx.
    destruct (In_nth options x "undefined" Hx) as (i & Hi & <-).
    exists (drawFor i (List.length options)).
    now apply choose_reaches.
Qed.

Lemma prompt_names_its_parts_witness :
  includes (prompt "10" "geometry" (Sample.always (Fulfilled JNull)) 0)
           "geometry" = true
  /\ includes (prompt "10" "geometry" (Sample.always (Fulfilled JNull)) 0)
              "10" = true.
Proof.
  destruct (prompt_names_its_parts
              "10" "geometry" (Sample.always (Fulfilled JNull)) 0)
    as (_ & Hg & Ht & _).
  - intros i j. vm_compute. repeat split; discriminate.
  - split; assumption.
Defined.

(** ** The validation *)


